(** * RetryHandler: a verification model of src/middleware/RetryHandler.ts

    The retry middleware of the Graph client is embedded as a small
    state-and-exception monad over
    - the single [Context] object that travels through the middleware chain,
    - a store of [RetryHandlerOptions] objects (so that [Object.assign]
      and the aliasing between [this.options] and the per-call options
      object are explicit),
    - the state of everything outside the handler (transport, clock,
      random source), and
    - a trace of the delegate invocations and suspensions performed.

    Numbers are JavaScript numbers restricted to what the handler can
    observe: [NaN] or a finite value, the finite values being exact
    rationals (binary64 rounding error and the infinities are left out).

    The next middleware and the [shouldRetry] predicate are code of the
    caller: the first is an arbitrary operation on the context and the
    outside world that may throw, the second a total function to
    [boolean]; neither holds a reference to an options object of the
    handler. *)

From Stdlib Require Import QArith Qround Lqa ZArith Lia String Ascii List.
From stdpp Require Import gmap strings pretty.

Open Scope string_scope.

(** ** JavaScript numbers *)

Inductive number : Type :=
  | NaN : number
  | Num : Q -> number.

Module JS.

Definition isNaN (x : number) : bool :=
  match x with NaN => true | Num _ => false end.

Definition lift2 (f : Q -> Q -> Q) (x y : number) : number :=
  match x, y with
  | Num a, Num b => Num (f a b)
  | _, _ => NaN
  end.

Definition add : number -> number -> number := lift2 Qplus.
Definition sub : number -> number -> number := lift2 Qminus.
Definition mul : number -> number -> number := lift2 Qmult.

(** [x / y]; a zero divisor (infinite or NaN in JavaScript) is not
    modelled as a finite value.  The handler only divides by 1000. *)
Definition div (x y : number) : number :=
  match x, y with
  | Num a, Num b => if Qeq_bool b 0%Q then NaN else Num (a / b)%Q
  | _, _ => NaN
  end.

(** [x === y] on numbers: [NaN] equals nothing, itself included. *)
Definition strict_eq (x y : number) : bool :=
  match x, y with
  | Num a, Num b => Qeq_bool a b
  | _, _ => false
  end.

(** [x <= y] on numbers: every comparison with [NaN] is false. *)
Definition leb (x y : number) : bool :=
  match x, y with
  | Num a, Num b => Qle_bool a b
  | _, _ => false
  end.

(** [Math.round]: nearest integer, a tie going towards +infinity. *)
Definition Math_round (x : number) : number :=
  match x with
  | NaN => NaN
  | Num a => Num (inject_Z (Qfloor (a + (1 # 2))%Q))
  end.

(** [Math.min] of two arguments: [NaN] as soon as one of them is. *)
Definition Math_min (x y : number) : number :=
  match x, y with
  | Num a, Num b => if Qle_bool a b then Num a else Num b
  | _, _ => NaN
  end.

(** [2 ** n] for a counter [n]. *)
Definition pow2 (n : nat) : number := Num (inject_Z (2 ^ Z.of_nat n)).

Definition of_nat (n : nat) : number := Num (inject_Z (Z.of_nat n)).

(** [Number(x.toFixed(3))]: [toFixed] picks the integer [n] with
    [n / 1000] nearest to [x], the larger one on a tie. *)
Definition toFixed3 (x : Q) : number :=
  Num (inject_Z (Qfloor (x * 1000 + (1 # 2))%Q) / 1000)%Q.

(** [n.toString()] for a counter [n]. *)
Definition toString (n : nat) : string := pretty n.

(** [a.indexOf(x)] on an array of integers. *)
Fixpoint indexOf_from (i : Z) (a : list Z) (x : Z) : Z :=
  match a with
  | [] => (-1)%Z
  | y :: a' => if (y =? x)%Z then i else indexOf_from (i + 1)%Z a' x
  end.

Definition indexOf (a : list Z) (x : Z) : Z := indexOf_from 0%Z a x.

(** The digits of a non-empty all-digit string, as a natural number. *)
Definition digit (c : ascii) : option N :=
  let n := N_of_ascii c in
  if ((48 <=? n) && (n <=? 57))%N then Some (n - 48)%N else None.

Fixpoint digits_from (acc : N) (s : string) : option N :=
  match s with
  | EmptyString => Some acc
  | String c s' =>
      match digit c with
      | Some d => digits_from (acc * 10 + d)%N s'
      | None => None
      end
  end.

Definition digits (s : string) : option N :=
  match s with
  | EmptyString => None
  | _ => digits_from 0%N s
  end.

End JS.

(** ** Fetch API data: headers, requests, responses *)

(** A [Headers] object: header names are kept in lower case and looked
    up without regard to case. *)
Definition lower_ascii (c : ascii) : ascii :=
  let n := N_of_ascii c in
  if ((65 <=? n) && (n <=? 90))%N then ascii_of_N (n + 32) else c.

Fixpoint lower (s : string) : string :=
  match s with
  | EmptyString => EmptyString
  | String c s' => String (lower_ascii c) (lower s')
  end.

Definition Headers_get (h : gmap string string) (name : string) : option string :=
  h !! lower name.

Definition Headers_set (h : gmap string string) (name value : string) : gmap string string :=
  <[lower name := value]> h.

Record Request : Type := mkRequest {
  req_url : string;
  req_method : string;
  req_headers : gmap string string;
}.

(** [RequestInfo]: a url string or a [Request] object. *)
Inductive RequestInfo : Type :=
  | Url : string -> RequestInfo
  | Req : Request -> RequestInfo.

(** [FetchOptions]: the fields of [RequestInit] the handler reads. *)
Record FetchOptions : Type := mkFetchOptions {
  fo_method : option string;
  fo_headers : option (gmap string string);
}.

Record Response : Type := mkResponse {
  status : Z;
  headers : option (gmap string string);
}.

(** Modelled from the spec: the members of [RequestMethod] (declared in
    src/RequestMethod.ts, which the handler imports), each the method's
    own upper-case name. *)
Module RequestMethod.
Definition PUT : string := "PUT".
Definition PATCH : string := "PATCH".
Definition POST : string := "POST".
Definition GET : string := "GET".
End RequestMethod.

(** ** Retry configuration *)

Definition ShouldRetry : Type :=
  number -> nat -> RequestInfo -> option FetchOptions -> option Response -> bool.

(** Modelled from the spec: [RetryHandlerOptions] (declared in
    src/middleware/options/RetryHandlerOptions.ts, which the handler
    imports) carries the maximum number of retries, the base delay, the
    delay cap read through [getMaxDelay()], and the approval predicate;
    [new RetryHandlerOptions()] has [maxRetries = 3], [delay = 3],
    [maxDelay = 180] and a predicate that always approves. *)
Module RetryHandlerOptions.

Record t : Type := make {
  delay : number;
  maxRetries : number;
  maxDelay : number;
  shouldRetry : ShouldRetry;
}.

Definition getMaxDelay (o : t) : number := maxDelay o.

Definition new : t :=
  {| delay := Num 3;
     maxRetries := Num 3;
     maxDelay := Num 180;
     shouldRetry := fun _ _ _ _ _ => true |}.

(** [o.constructor.name] *)
Definition constructor_name : string := "RetryHandlerOptions".

End RetryHandlerOptions.

(** The own properties of an options object handed to [Object.assign]:
    a per-call override may carry any subset of them. *)
Record MiddlewareOptions : Type := mkBag {
  bag_delay : option number;
  bag_maxRetries : option number;
  bag_maxDelay : option number;
  bag_shouldRetry : option ShouldRetry;
}.

Definition own_properties (o : RetryHandlerOptions.t) : MiddlewareOptions :=
  {| bag_delay := Some (RetryHandlerOptions.delay o);
     bag_maxRetries := Some (RetryHandlerOptions.maxRetries o);
     bag_maxDelay := Some (RetryHandlerOptions.maxDelay o);
     bag_shouldRetry := Some (RetryHandlerOptions.shouldRetry o) |}.

(** The pure part of [Object.assign(target, source)]: every property
    the source has overwrites the target's. *)
Definition assign (target : RetryHandlerOptions.t) (source : MiddlewareOptions)
  : RetryHandlerOptions.t :=
  {| RetryHandlerOptions.delay :=
       default (RetryHandlerOptions.delay target) (bag_delay source);
     RetryHandlerOptions.maxRetries :=
       default (RetryHandlerOptions.maxRetries target) (bag_maxRetries source);
     RetryHandlerOptions.maxDelay :=
       default (RetryHandlerOptions.maxDelay target) (bag_maxDelay source);
     RetryHandlerOptions.shouldRetry :=
       default (RetryHandlerOptions.shouldRetry target) (bag_shouldRetry source) |}.

(** Modelled from the spec: [MiddlewareControl] (declared in
    src/middleware/MiddlewareControl.ts, which the handler imports) is
    the per-call override bag, keyed by the name of the options class;
    [getMiddlewareOptions] is the lookup. *)
Definition getMiddlewareOptions (mc : gmap string MiddlewareOptions) (name : string)
  : option MiddlewareOptions :=
  mc !! name.

(** ** The context object *)

Module Context.

Record t : Type := make {
  request : RequestInfo;
  options : option FetchOptions;
  response : option Response;
  middlewareControl : option (gmap string MiddlewareOptions);
}.

End Context.

(** ** The machine: state, completions, and the monad *)

(** What an observer of one top-level call sees the handler do:
    [nextMiddleware.execute(context)] was called (and threw the given
    error, if any), or a timer of the given milliseconds was awaited. *)
Inductive Event (Error : Type) : Type :=
  | Delegated : option Error -> Event Error
  | Slept : number -> Event Error.

Arguments Delegated {Error} _.
Arguments Slept {Error} _.

Definition is_delegated {Error} (e : Event Error) : bool :=
  match e with Delegated _ => true | Slept _ => false end.

Definition is_slept {Error} (e : Event Error) : bool :=
  match e with Delegated _ => false | Slept _ => true end.

(** How often the delegate was invoked, and how often the call
    suspended itself, in a trace. *)
Definition delegations {Error} (tr : list (Event Error)) : nat :=
  length (List.filter is_delegated tr).

Definition suspensions {Error} (tr : list (Event Error)) : nat :=
  length (List.filter is_slept tr).

(** A failure is either one raised by the rest of the pipeline or a
    [TypeError] raised while running the handler's own code. *)
Inductive Thrown (Error : Type) : Type :=
  | FromNext : Error -> Thrown Error
  | TypeError : string -> Thrown Error.

Arguments FromNext {Error} _.
Arguments TypeError {Error} _.

(** How a computation ends: it returns, it throws, or (the recursion
    budget of the model being used up) its promise is still pending. *)
Inductive Completion (Error A : Type) : Type :=
  | Return : A -> Completion Error A
  | Throw : Thrown Error -> Completion Error A
  | Pending : Completion Error A.

Arguments Return {Error A} _.
Arguments Throw {Error A} _.
Arguments Pending {Error A}.

(** ** The environment of the handler

    Everything the handler calls but does not define: the next
    middleware of the chain (wired by [setNext]), the header accessors
    of MiddlewareUtil, and the JavaScript runtime. *)
Class Environment : Type := {
  (** The state of everything outside the handler. *)
  World : Type;
  (** What the rest of the pipeline may throw. *)
  Error : Type;
  (** [nextMiddleware.execute(context)]: it may throw, and it may
      change the context (it stores the response there). *)
  nextMiddleware_execute : Context.t -> World -> option Error * Context.t * World;
  (** [getRequestHeader(request, options, key)] *)
  getRequestHeader : RequestInfo -> option FetchOptions -> string -> option string;
  (** [setRequestHeader(request, options, key, value)]: the request and
      the options as the in-place update leaves them. *)
  setRequestHeader :
    RequestInfo -> option FetchOptions -> string -> string ->
    RequestInfo * option FetchOptions;
  (** [Math.random()] *)
  Math_random : World -> Q * World;
  (** [Date.now()] *)
  Date_now : World -> number * World;
  (** [new Date(s).getTime()] *)
  Date_getTime : string -> number;
  (** [Number(s)] for a string that is not a run of decimal digits. *)
  Number_other : string -> number;
  (** The world once a timer of the given milliseconds has fired. *)
  setTimeout : number -> World -> World;
}.

(** [Number(s)] for a header value. *)
Definition Number `{Environment} (s : string) : number :=
  match JS.digits s with
  | Some n => Num (inject_Z (Z.of_N n))
  | None => Number_other s
  end.

Section Machine.

Context `{Environment}.

Record State : Type := mkState {
  st_context : Context.t;                      (* the one context object *)
  st_heap : gmap nat RetryHandlerOptions.t;    (* options objects, by address *)
  st_world : World;
  st_trace : list (Event Error);               (* oldest event first *)
}.

Definition M (A : Type) : Type := State -> Completion Error A * State.

Definition ret {A} (a : A) : M A := fun s => (Return a, s).

Definition throw {A} (t : Thrown Error) : M A := fun s => (Throw t, s).

Definition pending {A} : M A := fun s => (Pending, s).

Definition bind {A B} (m : M A) (k : A -> M B) : M B :=
  fun s =>
    match m s with
    | (Return a, s') => k a s'
    | (Throw t, s') => (Throw t, s')
    | (Pending, s') => (Pending, s')
    end.

(** [try { body } catch (error) { handler(error) }] *)
Definition try_catch {A} (body : M A) (handler : Thrown Error -> M A) : M A :=
  fun s =>
    match body s with
    | (Throw t, s') => handler t s'
    | r => r
    end.

(** [a && b], the right operand evaluated only when the left is true. *)
Definition and_then (a b : M bool) : M bool :=
  bind a (fun x => if x then b else ret false).

Definition get_context : M Context.t := fun s => (Return (st_context s), s).

Definition set_context (c : Context.t) : M unit :=
  fun s => (Return tt, mkState c (st_heap s) (st_world s) (st_trace s)).

Definition emit (e : Event Error) : M unit :=
  fun s => (Return tt, mkState (st_context s) (st_heap s) (st_world s) (st_trace s ++ [e])).

Definition set_world (w : World) (s : State) : State :=
  mkState (st_context s) (st_heap s) w (st_trace s).

Definition set_heap (h : gmap nat RetryHandlerOptions.t) (s : State) : State :=
  mkState (st_context s) h (st_world s) (st_trace s).

(** Run an operation of the outside world. *)
Definition ask {A} (f : World -> A * World) : M A :=
  fun s =>
    let (a, w) := f (st_world s) in
    (Return a, set_world w s).

(** [new C()] with initial contents [o]: a fresh address. *)
Definition new_object (o : RetryHandlerOptions.t) : M nat :=
  fun s =>
    let l := fresh (dom (st_heap s)) in
    (Return l, mkState (st_context s) (<[l := o]> (st_heap s)) (st_world s) (st_trace s)).

(** Read the object at an address; an address that holds nothing
    behaves as [undefined]. *)
Definition deref (l : nat) : M RetryHandlerOptions.t :=
  fun s =>
    match st_heap s !! l with
    | Some o => (Return o, s)
    | None => (Throw (TypeError "Cannot read properties of undefined"), s)
    end.

(** [Object.assign(target, source)]; an [undefined] source is skipped. *)
Definition Object_assign (target : nat) (source : option MiddlewareOptions) : M unit :=
  bind (deref target) (fun o =>
    match source with
    | Some src =>
        fun s => (Return tt,
                  mkState (st_context s) (<[target := assign o src]> (st_heap s))
                          (st_world s) (st_trace s))
    | None => ret tt
    end).

(** [await this.nextMiddleware.execute(context)] *)
Definition nextMiddleware : M unit :=
  fun s =>
    match nextMiddleware_execute (st_context s) (st_world s) with
    | (outcome, c, w) =>
        let s' := mkState c (st_heap s) w (st_trace s ++ [Delegated outcome]) in
        match outcome with
        | Some e => (Throw (FromNext e), s')
        | None => (Return tt, s')
        end
    end.

End Machine.

Arguments State {_}.
Arguments M {_} _.

Declare Scope js_scope.
Delimit Scope js_scope with js.
Notation "x <- m ;; k" := (bind m (fun x => k))
  (at level 100, m at next level, right associativity) : js_scope.
Notation "m ;; k" := (bind m (fun _ => k))
  (at level 100, right associativity) : js_scope.
Notation "a &&& b" := (and_then a b) (at level 40, left associativity) : js_scope.
Open Scope js_scope.

(** ** The handler *)

Module RetryHandler.

(** An instance: [this.options] is a reference to an options object. *)
Record t : Type := make { options : nat }.

Definition RETRY_STATUS_CODES : list Z := [429; 503; 504]%Z.
Definition RETRY_ATTEMPT_HEADER : string := "Retry-Attempt".
Definition RETRY_AFTER_HEADER : string := "Retry-After".
Definition TRANSFER_ENCODING_HEADER : string := "Transfer-Encoding".
Definition TRANSFER_ENCODING_CHUNKED : string := "chunked".

Section Methods.

Context `{Environment}.

(** [x.f] for a value [x] that may be [undefined]. *)
Definition member {A B} (x : option A) (f : A -> B) : M B :=
  match x with
  | Some a => ret (f a)
  | None => throw (TypeError "Cannot read properties of undefined")
  end.

Definition isRetry (response : option Response) : M bool :=
  st <- member response status ;;
  ret (negb (JS.indexOf RETRY_STATUS_CODES st =? -1)%Z).

Definition isBuffered (request : RequestInfo) (options : option FetchOptions)
    (response : option Response) : M bool :=
  method <- match request with
            | Req r => ret (Some (req_method r))
            | Url _ => member options fo_method
            end ;;
  let isPutPatchOrPost : bool :=
    bool_decide (method = Some RequestMethod.PUT)
    || bool_decide (method = Some RequestMethod.PATCH)
    || bool_decide (method = Some RequestMethod.POST) in
  if isPutPatchOrPost then
    let isStream : bool :=
      bool_decide (getRequestHeader request options "Content-Type"
                   = Some "application/octet-stream") in
    if negb isStream then
      hs <- member response headers ;;
      let isTransferEncoding : bool :=
        match hs with
        | Some h =>
            bool_decide (Headers_get h TRANSFER_ENCODING_HEADER
                         = Some TRANSFER_ENCODING_CHUNKED)
        | None => false
        end in
      if isTransferEncoding then ret true else ret false
    else ret false
  else ret false.

Definition getExponentialBackOffTime (attempts : nat) : M number :=
  r <- ask Math_random ;;
  let randomness := JS.toFixed3 r in
  ret (JS.add
         (JS.Math_round (JS.mul (Num (1 # 2)) (JS.sub (JS.pow2 attempts) (Num 1))))
         randomness).

(** The value of the local [newDelay] of [getDelay] at the point of
    the [return]. *)
Definition getDelay_newDelay (response : option Response) (retryAttempts : nat)
    (delay : number) : M number :=
  hs <- member response headers ;;
  let retryAfter : option string :=
    match hs with
    | Some h => Headers_get h RETRY_AFTER_HEADER
    | None => None
    end in
  match retryAfter with
  | Some retryAfter =>
      if JS.isNaN (Number retryAfter) then
        now <- ask Date_now ;;
        ret (JS.Math_round (JS.div (JS.sub (Date_getTime retryAfter) now) (Num 1000)))
      else ret (Number retryAfter)
  | None =>
      b <- getExponentialBackOffTime retryAttempts ;;
      ret (JS.mul b delay)
  end.

Definition getDelay (this : t) (response : option Response) (retryAttempts : nat)
    (delay : number) : M number :=
  newDelay <- getDelay_newDelay response retryAttempts delay ;;
  this_options <- deref (options this) ;;
  ret (JS.Math_min newDelay (RetryHandlerOptions.getMaxDelay this_options)).

Definition sleep (delaySeconds : number) : M unit :=
  let delayMilliseconds := JS.mul delaySeconds (Num 1000) in
  emit (Slept delayMilliseconds) ;;
  ask (fun w => (tt, setTimeout delayMilliseconds w)).

(** [executeWithRetry(context, retryAttempts, options)]; [context]
    is the context object of the state, [options] the address of
    the per-call options object.  [fuel] bounds the depth of the
    recursion: a call that would go deeper is left [Pending]. *)
Fixpoint executeWithRetry (fuel : nat) (this : t) (retryAttempts : nat)
    (options : nat) : M unit :=
  match fuel with
  | O => pending
  | S fuel =>
      try_catch
        (nextMiddleware ;;
         proceed <-
           (o <- deref options ;;
            ret (JS.strict_eq (RetryHandlerOptions.maxRetries o) (JS.of_nat retryAttempts)))
           &&& (context <- get_context ;; isRetry (Context.response context))
           &&& (context <- get_context ;;
                isBuffered (Context.request context) (Context.options context)
                           (Context.response context))
           &&& (o <- deref options ;;
                context <- get_context ;;
                ret (RetryHandlerOptions.shouldRetry o (RetryHandlerOptions.delay o)
                       retryAttempts (Context.request context)
                       (Context.options context) (Context.response context))) ;;
         if proceed then
           let retryAttempts := S retryAttempts in
           context <- get_context ;;
           (let (request, fetchOptions) :=
              setRequestHeader (Context.request context) (Context.options context)
                               RETRY_ATTEMPT_HEADER (JS.toString retryAttempts) in
            set_context (Context.make request fetchOptions (Context.response context)
                                      (Context.middlewareControl context))) ;;
           context <- get_context ;;
           o <- deref options ;;
           delay <- getDelay this (Context.response context) retryAttempts
                             (RetryHandlerOptions.delay o) ;;
           sleep delay ;;
           executeWithRetry fuel this retryAttempts options
         else ret tt)
        (fun error => throw error)
  end.

(** [execute(context)] *)
Definition execute (fuel : nat) (this : t) : M unit :=
  try_catch
    (let retryAttempts := 0 in
     target <- new_object RetryHandlerOptions.new ;;
     this_options <- deref (options this) ;;
     Object_assign target (Some (own_properties this_options)) ;;
     let options := target in
     context <- get_context ;;
     match Context.middlewareControl context with
     | Some mc =>
         let requestOptions :=
           getMiddlewareOptions mc RetryHandlerOptions.constructor_name in
         Object_assign options requestOptions
     | None => ret tt
     end ;;
     executeWithRetry fuel this retryAttempts options)
    (fun error => throw error).

(** Three views on the bodies above, used to state the theorems:
    the condition of the [if] of [executeWithRetry], its [then]
    branch up to the computation of the delay, and the part of
    [execute] that builds the per-call options object. *)
Definition eligible (retryAttempts : nat) (options : nat) : M bool :=
  (o <- deref options ;;
   ret (JS.strict_eq (RetryHandlerOptions.maxRetries o) (JS.of_nat retryAttempts)))
  &&& (context <- get_context ;; isRetry (Context.response context))
  &&& (context <- get_context ;;
       isBuffered (Context.request context) (Context.options context)
                  (Context.response context))
  &&& (o <- deref options ;;
       context <- get_context ;;
       ret (RetryHandlerOptions.shouldRetry o (RetryHandlerOptions.delay o)
              retryAttempts (Context.request context)
              (Context.options context) (Context.response context))).

Definition prepare (this : t) (retryAttempts : nat) (options : nat) : M number :=
  context <- get_context ;;
  (let (request, fetchOptions) :=
     setRequestHeader (Context.request context) (Context.options context)
                      RETRY_ATTEMPT_HEADER (JS.toString retryAttempts) in
   set_context (Context.make request fetchOptions (Context.response context)
                             (Context.middlewareControl context))) ;;
  context <- get_context ;;
  o <- deref options ;;
  getDelay this (Context.response context) retryAttempts (RetryHandlerOptions.delay o).

Definition effective_options (this : t) : M nat :=
  target <- new_object RetryHandlerOptions.new ;;
  this_options <- deref (options this) ;;
  Object_assign target (Some (own_properties this_options)) ;;
  context <- get_context ;;
  match Context.middlewareControl context with
  | Some mc =>
      Object_assign target
        (getMiddlewareOptions mc RetryHandlerOptions.constructor_name)
  | None => ret tt
  end ;;
  ret target.

End Methods.

End RetryHandler.

(** ** A scripted environment

    A transport that answers from a script, a clock, and a list of
    values for [Math.random()]: the environment of the examples. *)
Module Scripted.

Record world : Type := mkWorld {
  replies : list (string + Response);   (* what the pipeline does, call by call *)
  clock : Q;                            (* milliseconds since the epoch *)
  dice : list Q;                        (* the values of [Math.random()] to come *)
}.

Definition next (c : Context.t) (w : world)
  : option string * Context.t * world :=
  match replies w with
  | [] => (Some "script exhausted", c, w)
  | inl e :: rest => (Some e, c, mkWorld rest (clock w) (dice w))
  | inr r :: rest =>
      (None,
       Context.make (Context.request c) (Context.options c) (Some r)
                    (Context.middlewareControl c),
       mkWorld rest (clock w) (dice w))
  end.

(** Modelled from the spec: the header accessors of MiddlewareUtil
    (src/middleware/MiddlewareUtil.ts, which the handler imports) get
    and set a named header on the request, on the [Request] object
    when there is one and on the request options otherwise. *)
Definition getHeader (request : RequestInfo) (options : option FetchOptions)
    (key : string) : option string :=
  match request with
  | Req r => Headers_get (req_headers r) key
  | Url _ =>
      match options with
      | Some o =>
          match fo_headers o with
          | Some h => Headers_get h key
          | None => None
          end
      | None => None
      end
  end.

Definition setHeader (request : RequestInfo) (options : option FetchOptions)
    (key value : string) : RequestInfo * option FetchOptions :=
  match request with
  | Req r =>
      (Req (mkRequest (req_url r) (req_method r) (Headers_set (req_headers r) key value)),
       options)
  | Url _ =>
      match options with
      | Some o =>
          (request,
           Some (mkFetchOptions (fo_method o)
                   (Some (Headers_set (default ∅ (fo_headers o)) key value))))
      | None => (request, None)
      end
  end.

Definition random (w : world) : Q * world :=
  match dice w with
  | [] => (0%Q, w)
  | r :: rest => (r, mkWorld (replies w) (clock w) rest)
  end.

Definition now (w : world) : number * world := (Num (clock w), w).

(** The one timestamp the examples use; anything else is not a date. *)
Definition getTime (s : string) : number :=
  if bool_decide (s = "Thu, 01 Jan 1970 00:01:00 GMT") then Num 60000 else NaN.

(** [Number("")] is [0]; no other string of the examples that is not
    a run of digits is a number. *)
Definition number_other (s : string) : number :=
  if bool_decide (s = "") then Num 0 else NaN.

Definition wait (ms : number) (w : world) : world :=
  match ms with
  | Num d => mkWorld (replies w) (clock w + d)%Q (dice w)
  | NaN => w
  end.

#[export] Instance env : Environment := {|
  World := world;
  Error := string;
  nextMiddleware_execute := next;
  getRequestHeader := getHeader;
  setRequestHeader := setHeader;
  Math_random := random;
  Date_now := now;
  Date_getTime := getTime;
  Number_other := number_other;
  setTimeout := wait;
|}.

(** A handler whose [this.options] is the object at address 0. *)
Definition handler : RetryHandler.t := RetryHandler.make 0.

Definition start (c : Context.t) (o : RetryHandlerOptions.t) (w : world) : State :=
  mkState c {[ 0 := o ]} w [].

Definition with_maxRetries (n : Q) : RetryHandlerOptions.t :=
  RetryHandlerOptions.make (Num 3) (Num n) (Num 180) (fun _ _ _ _ _ => true).

Definition chunked (st : Z) : Response :=
  mkResponse st (Some {[ "transfer-encoding" := "chunked" ]}).

Definition post : Context.t :=
  Context.make (Url "/me/messages")
               (Some (mkFetchOptions (Some "POST") None)) None None.

Definition get : Context.t :=
  Context.make (Url "/me/messages")
               (Some (mkFetchOptions (Some "GET") None)) None None.

(** A request given as a plain url, with no request options. *)
Definition bare : Context.t := Context.make (Url "/me/messages") None None None.

(** A POST that carries a per-call override of the retry options. *)
Definition post_with (b : MiddlewareOptions) : Context.t :=
  Context.make (Url "/me/messages")
               (Some (mkFetchOptions (Some "POST") None)) None
               (Some {[ "RetryHandlerOptions" := b ]}).

(** A transport that is unavailable twice and then answers. *)
Definition flaky : world :=
  mkWorld [inr (chunked 503); inr (chunked 503); inr (chunked 200)] 0 [].

(** A transport that fails outright. *)
Definition broken : world := mkWorld [inl "connection reset"] 0 [].

Definition retry_after (value : string) : Response :=
  mkResponse 429 (Some {[ "retry-after" := value ]}).

(** The value of the Retry-Attempt header of the request of a state. *)
(** A per-call override: [delay] 100, [maxRetries] 0, [maxDelay] 2. *)
Definition override : MiddlewareOptions :=
  mkBag (Some (Num 100)) (Some (Num 0)) (Some (Num 2)) None.

Definition attempt_header (s : State) : option string :=
  getHeader (Context.request (st_context s)) (Context.options (st_context s))
            RetryHandler.RETRY_ATTEMPT_HEADER.

(** A PUT of a raw stream. *)
Definition upload : Context.t :=
  Context.make (Url "/me/drive/root:/a.bin:/content")
    (Some (mkFetchOptions (Some "PUT")
             (Some {[ "content-type" := "application/octet-stream" ]})))
    None None.

(** A transport that answers at once. *)
Definition healthy : world := mkWorld [inr (chunked 200)] 0 [].

(** Options whose predicate never approves. *)
Definition vetoing : RetryHandlerOptions.t :=
  RetryHandlerOptions.make (Num 3) (Num 0) (Num 180) (fun _ _ _ _ _ => false).

End Scripted.

(** ** Vocabulary of the specification *)

(** The request's method: that of the [Request] object, or else the one
    the request options give. *)
Definition request_method (request : RequestInfo) (options : option FetchOptions)
  : option string :=
  match request with
  | Req r => Some (req_method r)
  | Url _ => match options with Some o => fo_method o | None => None end
  end.

Definition write_method (m : option string) : Prop :=
  m = Some "PUT" \/ m = Some "PATCH" \/ m = Some "POST".

(** A header of a response, if the response has headers and they
    include it. *)
Definition response_header (response : Response) (name : string) : option string :=
  match headers response with
  | Some h => Headers_get h name
  | None => None
  end.

(** The retryable status set. *)
Definition retryable (st : Z) : Prop := (st = 429 \/ st = 503 \/ st = 504)%Z.

(** "Safe to resend", in the words of the specification: a write
    method, a content type that is not the binary-stream marker, and a
    response that signals chunked transfer encoding. *)
Definition resend_safe `{Environment} (request : RequestInfo)
    (options : option FetchOptions) (response : Response) : Prop :=
  write_method (request_method request options)
  /\ getRequestHeader request options "Content-Type" <> Some "application/octet-stream"
  /\ response_header response "Transfer-Encoding" = Some "chunked".

(** The base of the exponential backoff: the delay before the jitter is
    added and before the multiplication by the base delay. *)
Definition backoff_base (attempts : nat) : number :=
  JS.Math_round (JS.mul (Num (1 # 2)) (JS.sub (JS.pow2 attempts) (Num 1))).

(** Equality and order of numbers as values ([NaN] is a value here). *)
Definition same_number (x y : number) : Prop :=
  match x, y with
  | NaN, NaN => True
  | Num a, Num b => (a == b)%Q
  | _, _ => False
  end.

Definition at_most (x y : number) : Prop :=
  match x, y with
  | Num a, Num b => (a <= b)%Q
  | _, _ => False
  end.

(** The events a run added to the trace. *)
Definition added `{Environment} (s s' : State) (evs : list (Event Error)) : Prop :=
  st_trace s' = (st_trace s ++ evs)%list.

(** The per-call override a context carries for this handler, and the
    effective configuration of one call in the words of the
    specification: a copy of the handler's configuration with the
    override, if there is one, applied on top. *)
Definition override_of (c : Context.t) : option MiddlewareOptions :=
  match Context.middlewareControl c with
  | Some mc => getMiddlewareOptions mc RetryHandlerOptions.constructor_name
  | None => None
  end.

Definition effective (configured : RetryHandlerOptions.t)
    (override : option MiddlewareOptions) : RetryHandlerOptions.t :=
  match override with
  | Some b => assign configured b
  | None => configured
  end.

(** An options object with another [maxDelay], and two options objects
    that differ in [maxDelay] at most. *)
Definition with_maxDelay (x : number) (o : RetryHandlerOptions.t) : RetryHandlerOptions.t :=
  RetryHandlerOptions.make (RetryHandlerOptions.delay o) (RetryHandlerOptions.maxRetries o)
                           x (RetryHandlerOptions.shouldRetry o).

Definition same_but_maxDelay (c1 c2 : RetryHandlerOptions.t) : Prop :=
  RetryHandlerOptions.delay c1 = RetryHandlerOptions.delay c2
  /\ RetryHandlerOptions.maxRetries c1 = RetryHandlerOptions.maxRetries c2
  /\ RetryHandlerOptions.shouldRetry c1 = RetryHandlerOptions.shouldRetry c2.

(** Two states are alike, for a handler and the address [o] of a
    per-call options object, when they differ at most in the [maxDelay]
    of the object at [o] (and in objects at other addresses than [o] and
    [this.options]). *)
Definition alike `{Environment} (this : RetryHandler.t) (o : nat) (s1 s2 : State) : Prop :=
  st_context s1 = st_context s2
  /\ st_world s1 = st_world s2
  /\ st_trace s1 = st_trace s2
  /\ st_heap s1 !! RetryHandler.options this = st_heap s2 !! RetryHandler.options this
  /\ match st_heap s1 !! o, st_heap s2 !! o with
     | Some c1, Some c2 => same_but_maxDelay c1 c2
     | None, None => True
     | _, _ => False
     end.

(** Two computations are related when, from states that are alike, they
    end in the same completion and in states that are alike. *)
Definition related `{Environment} (this : RetryHandler.t) (o : nat) {A}
    (m1 m2 : M A) : Prop :=
  forall s1 s2, alike this o s1 s2 ->
    fst (m1 s1) = fst (m2 s2) /\ alike this o (snd (m1 s1)) (snd (m2 s2)).

(** What a run shows to its caller and to the outside: the completion,
    the context, the world, the trace. *)
Definition outcome `{Environment} {A} (r : Completion Error A * State) :=
  (fst r, st_context (snd r), st_world (snd r), st_trace (snd r)).

(** The context once the attempt count is written to the request. *)
Definition announced `{Environment} (retryAttempts : nat) (c : Context.t) : Context.t :=
  let (request, fetchOptions) :=
    setRequestHeader (Context.request c) (Context.options c)
                     RetryHandler.RETRY_ATTEMPT_HEADER (JS.toString retryAttempts) in
  Context.make request fetchOptions (Context.response c) (Context.middlewareControl c).

(** The errors of the delegate invocations that threw, oldest first. *)
Fixpoint failures {Error} (tr : list (Event Error)) : list Error :=
  match tr with
  | [] => []
  | Delegated (Some e) :: tr' => e :: failures tr'
  | _ :: tr' => failures tr'
  end.

(** The events of a settled call come in turns: a delegate invocation,
    and after every one but the last a suspension; only the last
    invocation may have thrown. *)
Fixpoint turns {Error} (tr : list (Event Error)) : Prop :=
  match tr with
  | Delegated outcome :: rest =>
      match rest with
      | [] => True
      | Slept _ :: tr' => outcome = None /\ turns tr'
      | Delegated _ :: _ => False
      end
  | _ => False
  end.

(** A timer of at most [m] seconds, in milliseconds; a timer of [NaN]
    milliseconds fires at once. *)
Definition timer_within (m : Q) (e : number) : Prop :=
  match e with
  | NaN => True
  | Num ms => (ms <= m * 1000)%Q
  end.

Definition suspension_within {Error} (m : Q) (e : Event Error) : Prop :=
  match e with
  | Slept ms => timer_within m ms
  | Delegated _ => True
  end.

(** A request whose method and headers can be read: a [Request]
    object, or a url that comes with request options. *)
Definition addressable (request : RequestInfo) (options : option FetchOptions) : Prop :=
  match request with
  | Req _ => True
  | Url _ => options <> None
  end.

(** ** Vocabulary of the proofs *)

Section Vocabulary.

Context `{Environment}.

(** A completion of the handler's own making: a value, or a
    [TypeError] of the runtime. *)
Definition own {A} (r : Completion Error A) : Prop :=
  match r with
  | Return _ => True
  | Throw (TypeError _) => True
  | Throw (FromNext _) => False
  | Pending => False
  end.

(** A computation is silent when it leaves the state as it found it,
    and internal when it leaves the store and the trace as it found
    them; either ends in a completion of its own. *)
Definition silent {A} (m : M A) : Prop :=
  forall s, snd (m s) = s /\ own (fst (m s)).

Definition internal {A} (m : M A) : Prop :=
  forall s,
    st_heap (snd (m s)) = st_heap s
    /\ st_trace (snd (m s)) = st_trace s
    /\ own (fst (m s)).

(** The state once the call has slept [d] seconds. *)
Definition after_sleep (d : number) (s : State) : State :=
  mkState (st_context s) (st_heap s)
          (setTimeout (JS.mul d (Num 1000)) (st_world s))
          (st_trace s ++ [Slept (JS.mul d (Num 1000))])%list.

End Vocabulary.

(** * Properties *)

(** ** The monad *)

Section MonadFacts.

Context `{Environment}.

Lemma try_catch_rethrow {A} (m : M A) s :
  try_catch m (fun error => throw error) s = m s.
Proof.
  unfold try_catch, throw. destruct (m s) as [[a | t |] s']; reflexivity.
Qed.

Lemma bind_assoc {A B C} (m : M A) (f : A -> M B) (g : B -> M C) s :
  bind (bind m f) g s = bind m (fun x => bind (f x) g) s.
Proof.
  unfold bind. destruct (m s) as [[a | t |] s']; reflexivity.
Qed.

Lemma bind_Return {A B} (m : M A) (k : A -> M B) s a s' :
  m s = (Return a, s') -> bind m k s = k a s'.
Proof. intros E. unfold bind. rewrite E. reflexivity. Qed.

Lemma bind_Throw {A B} (m : M A) (k : A -> M B) s t s' :
  m s = (Throw t, s') -> bind m k s = (Throw t, s').
Proof. intros E. unfold bind. rewrite E. reflexivity. Qed.

Lemma bind_Pending {A B} (m : M A) (k : A -> M B) s s' :
  m s = (Pending, s') -> bind m k s = (Pending, s').
Proof. intros E. unfold bind. rewrite E. reflexivity. Qed.

Lemma bind_ext {A B} (m : M A) (f g : A -> M B) s :
  (forall a s', f a s' = g a s') -> bind m f s = bind m g s.
Proof.
  intros E. unfold bind. destruct (m s) as [[a | t |] s']; auto.
Qed.

Lemma bind_Return_inv {A B} (m : M A) (k : A -> M B) s b s' :
  bind m k s = (Return b, s') ->
  exists a s1, m s = (Return a, s1) /\ k a s1 = (Return b, s').
Proof.
  unfold bind. destruct (m s) as [[a | t |] s1]; intros E; try discriminate.
  eauto.
Qed.

Lemma and_then_true_inv (a b : M bool) s s' :
  and_then a b s = (Return true, s') ->
  exists s1, a s = (Return true, s1) /\ b s1 = (Return true, s').
Proof.
  intros E. apply bind_Return_inv in E as ([|] & s1 & Ea & Eb).
  - eauto.
  - discriminate.
Qed.

Lemma silent_ret {A} (a : A) : silent (ret a).
Proof. intros s. split; cbn; auto. Qed.

Lemma silent_throw {A} msg : silent (@throw _ A (TypeError msg)).
Proof. intros s. split; cbn; auto. Qed.

Lemma silent_bind {A B} (m : M A) (k : A -> M B) :
  silent m -> (forall a, silent (k a)) -> silent (bind m k).
Proof.
  intros Hm Hk s. unfold bind. destruct (Hm s) as [Es Ep].
  destruct (m s) as [[a | [e | msg] |] s1]; cbn in *; subst;
    [apply Hk | contradiction | split; auto | contradiction].
Qed.

Lemma silent_and_then (a b : M bool) : silent a -> silent b -> silent (and_then a b).
Proof.
  intros Ha Hb. apply silent_bind; [assumption |].
  intros [|]; [assumption | apply silent_ret].
Qed.

Lemma silent_get_context : silent get_context.
Proof. intros s. split; cbn; auto. Qed.

Lemma silent_deref l : silent (deref l).
Proof.
  intros s. unfold deref. destruct (st_heap s !! l); split; cbn; auto.
Qed.

Lemma silent_internal {A} (m : M A) : silent m -> internal m.
Proof. intros Hm s. destruct (Hm s) as [-> ?]. auto. Qed.

Lemma internal_bind {A B} (m : M A) (k : A -> M B) :
  internal m -> (forall a, internal (k a)) -> internal (bind m k).
Proof.
  intros Hm Hk s. unfold bind. destruct (Hm s) as (Eh & Et & Ep).
  destruct (m s) as [[a | [e | msg] |] s1]; cbn in *;
    [| contradiction | auto | contradiction].
  destruct (Hk a s1) as (E1 & E2 & E3). repeat split; [congruence | congruence | assumption].
Qed.

Lemma internal_set_context c : internal (set_context c).
Proof. intros s. cbn. auto. Qed.

Lemma internal_ask {A} (f : World -> A * World) : internal (ask f).
Proof.
  intros s. unfold ask. destruct (f (st_world s)). cbn. auto.
Qed.

End MonadFacts.

Create HintDb silent.
#[export] Hint Resolve silent_ret silent_throw silent_get_context silent_deref
  silent_and_then : silent.
#[export] Hint Resolve internal_set_context internal_ask silent_internal : silent.

(** Walk down a chain of binds, leaving the leaves to the hints. *)
Ltac walk :=
  repeat first
    [ solve [auto with silent]
    | progress cbv zeta
    | match goal with
      | |- silent (match ?x with _ => _ end) => destruct x
      | |- internal (match ?x with _ => _ end) => destruct x
      | |- silent (if ?x then _ else _) => destruct x
      | |- internal (if ?x then _ else _) => destruct x
      | |- silent (let (_, _) := ?x in _) => destruct x
      | |- internal (let (_, _) := ?x in _) => destruct x
      end
    | apply silent_and_then
    | apply silent_bind; [| intros ?]
    | apply internal_bind; [| intros ?] ].

Section HandlerFacts.

Context `{Environment}.

Import RetryHandler.

Lemma executeWithRetry_unfold fuel this n o s :
  executeWithRetry (S fuel) this n o s =
  (nextMiddleware ;;
   proceed <- eligible n o ;;
   if proceed then
     delay <- prepare this (S n) o ;;
     sleep delay ;;
     executeWithRetry fuel this (S n) o
   else ret tt) s.
Proof.
  cbn [executeWithRetry]. rewrite try_catch_rethrow.
  apply bind_ext; intros _ s1. unfold eligible.
  apply bind_ext; intros [|] s2; [| reflexivity].
  unfold prepare.
  repeat (rewrite bind_assoc; apply bind_ext; intros ? ?).
  reflexivity.
Qed.

(** *** Status and payload checks *)

Lemma retry_status_codes st :
  negb (JS.indexOf RETRY_STATUS_CODES st =? -1)%Z = true <-> retryable st.
Proof.
  unfold retryable, JS.indexOf, RETRY_STATUS_CODES; cbn [JS.indexOf_from].
  destruct (Z.eqb_spec 429 st); [cbn; lia |].
  destruct (Z.eqb_spec 503 st); [cbn; lia |].
  destruct (Z.eqb_spec 504 st); [cbn; lia |].
  cbn. split; [discriminate | lia].
Qed.

Lemma isRetry_Some r s :
  isRetry (Some r) s = (Return (negb (JS.indexOf RETRY_STATUS_CODES (status r) =? -1)%Z), s).
Proof. reflexivity. Qed.

Lemma isRetry_None s :
  exists msg, isRetry None s = (Throw (TypeError msg), s).
Proof. eexists. reflexivity. Qed.

Lemma isBuffered_true_iff request options response s :
  isBuffered request options (Some response) s = (Return true, s)
  <-> resend_safe request options response.
Proof.
  unfold isBuffered, resend_safe, write_method, request_method, response_header,
    member, bind, ret, throw,
    RequestMethod.PUT, RequestMethod.PATCH, RequestMethod.POST,
    TRANSFER_ENCODING_HEADER, TRANSFER_ENCODING_CHUNKED.
  destruct request as [u | r]; [destruct options as [fo |] |];
    repeat case_bool_decide; cbn;
    repeat (case_match; cbn); repeat case_bool_decide;
    try (split; [intros; try discriminate; try congruence | intros; try reflexivity]);
    intuition (try discriminate; try congruence).
Qed.

Lemma silent_member {A B} (x : option A) (f : A -> B) : silent (member x f).
Proof. destruct x; cbn; auto with silent. Qed.

Lemma silent_isRetry response : silent (isRetry response).
Proof. unfold isRetry. pose proof @silent_member. walk. Qed.

Lemma silent_isBuffered request options response :
  silent (isBuffered request options response).
Proof. unfold isBuffered. pose proof @silent_member. walk. Qed.

Lemma isBuffered_not_write request options response s m :
  request_method request options = Some m ->
  ~ write_method (Some m) ->
  isBuffered request options response s = (Return false, s).
Proof.
  unfold isBuffered, request_method, write_method, member, bind, ret, throw,
    RequestMethod.PUT, RequestMethod.PATCH, RequestMethod.POST.
  intros Hm Hw.
  destruct request as [u | r]; [destruct options as [fo |]; [| discriminate] |];
    cbn in *; simplify_eq; try rewrite Hm;
    repeat case_bool_decide; cbn; try reflexivity; exfalso; apply Hw; auto.
Qed.

(** *** The delegate *)

Lemma nextMiddleware_run s :
  nextMiddleware s =
  let '(outcome, c, w) := nextMiddleware_execute (st_context s) (st_world s) in
  (match outcome with Some e => Throw (FromNext e) | None => Return tt end,
   mkState c (st_heap s) w (st_trace s ++ [Delegated outcome])%list).
Proof.
  unfold nextMiddleware.
  destruct (nextMiddleware_execute _ _) as [[[e |] c] w]; reflexivity.
Qed.

(** *** The condition of the retry *)

Lemma sleep_run d s :
  sleep d s =
  (Return tt,
   mkState (st_context s) (st_heap s)
           (setTimeout (JS.mul d (Num 1000)) (st_world s))
           (st_trace s ++ [Slept (JS.mul d (Num 1000))])%list).
Proof. reflexivity. Qed.

(** *** The delay *)

Lemma internal_getExponentialBackOffTime n : internal (getExponentialBackOffTime n).
Proof. unfold getExponentialBackOffTime. walk. Qed.

Lemma internal_getDelay_newDelay response n d :
  internal (getDelay_newDelay response n d).
Proof.
  unfold getDelay_newDelay.
  pose proof @silent_member. pose proof internal_getExponentialBackOffTime. walk.
Qed.

Lemma internal_getDelay this response n d : internal (getDelay this response n d).
Proof.
  unfold getDelay. pose proof internal_getDelay_newDelay. walk.
Qed.

Lemma internal_prepare this n o : internal (prepare this n o).
Proof.
  unfold prepare. pose proof internal_getDelay. walk.
Qed.

Lemma silent_eligible n o : silent (eligible n o).
Proof.
  unfold eligible.
  pose proof silent_isRetry. pose proof silent_isBuffered. walk.
Qed.

Lemma eligible_gate_closed n o s cfg :
  st_heap s !! o = Some cfg ->
  JS.strict_eq (RetryHandlerOptions.maxRetries cfg) (JS.of_nat n) = false ->
  eligible n o s = (Return false, s).
Proof.
  intros Ho Hg. unfold eligible, and_then, bind, deref, ret.
  rewrite Ho; cbn. rewrite Hg. reflexivity.
Qed.

(** The condition holds exactly when the four conjuncts of the source
    hold, the first of them being [options.maxRetries === retryAttempts]. *)
Lemma eligible_true_iff n o s :
  eligible n o s = (Return true, s)
  <-> exists cfg r,
        st_heap s !! o = Some cfg
        /\ JS.strict_eq (RetryHandlerOptions.maxRetries cfg) (JS.of_nat n) = true
        /\ Context.response (st_context s) = Some r
        /\ retryable (status r)
        /\ resend_safe (Context.request (st_context s)) (Context.options (st_context s)) r
        /\ RetryHandlerOptions.shouldRetry cfg (RetryHandlerOptions.delay cfg) n
             (Context.request (st_context s)) (Context.options (st_context s))
             (Some r) = true.
Proof.
  split.
  - intros E. unfold eligible, and_then, bind, deref, get_context, ret in E.
    destruct (st_heap s !! o) as [cfg |] eqn:Ho; [| discriminate].
    destruct (JS.strict_eq _ _) eqn:Hg; [| discriminate].
    destruct (Context.response (st_context s)) as [r |] eqn:Hr; [| discriminate].
    rewrite isRetry_Some in E.
    destruct (negb _) eqn:Hst; [| discriminate].
    rewrite Hr in E.
    pose proof (silent_isBuffered (Context.request (st_context s))
                  (Context.options (st_context s)) (Some r) s) as [Es _].
    destruct (isBuffered _ _ _ s) as [[[|] | t |] s3] eqn:Hb; try discriminate.
    cbn in Es; subst s3. rewrite Ho, Hr in E.
    apply isBuffered_true_iff in Hb. apply retry_status_codes in Hst.
    exists cfg, r. repeat split; try assumption; try apply Hb. congruence.
  - intros (cfg & r & Ho & Hg & Hr & Hst & Hb & Hp).
    apply retry_status_codes in Hst. apply (isBuffered_true_iff _ _ _ s) in Hb.
    unfold eligible, and_then, bind, deref, get_context, ret.
    repeat first [ rewrite Ho | rewrite Hg | rewrite Hr | rewrite isRetry_Some
                 | rewrite Hst | rewrite Hb | rewrite Hp | progress cbv beta iota ].
    reflexivity.
Qed.

Lemma strict_eq_succ m n :
  JS.strict_eq m (JS.of_nat n) = true -> JS.strict_eq m (JS.of_nat (S n)) = false.
Proof.
  destruct m as [| q]; cbn; [discriminate |].
  intros E. apply Qeq_bool_iff in E.
  destruct (Qeq_bool q (inject_Z (Z.of_nat (S n)))) eqn:E'; [| reflexivity].
  apply Qeq_bool_iff in E'. rewrite E in E'.
  apply (proj1 (inject_Z_injective _ _)) in E'. lia.
Qed.

Lemma strict_eq_below m n :
  (inject_Z (Z.of_nat n) < m)%Q -> JS.strict_eq (Num m) (JS.of_nat n) = false.
Proof.
  intros Hlt. cbn. destruct (Qeq_bool m (inject_Z (Z.of_nat n))) eqn:E; [| reflexivity].
  apply Qeq_bool_iff in E. rewrite E in Hlt. exfalso. apply (Qlt_irrefl _ Hlt).
Qed.

(** *** One turn of the retry loop *)

Lemma executeWithRetry_step fuel this n o s :
  executeWithRetry (S fuel) this n o s =
  let '(outcome, c, w) := nextMiddleware_execute (st_context s) (st_world s) in
  let s1 := mkState c (st_heap s) w (st_trace s ++ [Delegated outcome])%list in
  match outcome with
  | Some e => (Throw (FromNext e), s1)
  | None =>
      match fst (eligible n o s1) with
      | Return true =>
          match prepare this (S n) o s1 with
          | (Return d, s2) => executeWithRetry fuel this (S n) o (after_sleep d s2)
          | (Throw t, s2) => (Throw t, s2)
          | (Pending, s2) => (Pending, s2)
          end
      | Return false => (Return tt, s1)
      | Throw t => (Throw t, s1)
      | Pending => (Pending, s1)
      end
  end.
Proof.
  rewrite executeWithRetry_unfold. unfold bind at 1. rewrite nextMiddleware_run.
  destruct (nextMiddleware_execute _ _) as [[[e |] c] w]; [reflexivity |].
  cbv zeta. set (s1 := mkState _ _ _ _). unfold bind at 1.
  pose proof (silent_eligible n o s1) as [Es _].
  destruct (eligible n o s1) as [[[|] | t |] s1']; cbn in Es; subst s1'; cbn [fst];
    reflexivity.
Qed.

End HandlerFacts.

(** ** Failures of the delegate (C2) *)

Section Propagation.

Context `{Environment}.

Import RetryHandler.

Lemma failures_app (a b : list (Event Error)) :
  failures (a ++ b)%list = (failures a ++ failures b)%list.
Proof.
  induction a as [| [[e |] | ms] a IH]; cbn; [reflexivity | f_equal; exact IH | exact IH ..].
Qed.

Lemma executeWithRetry_failure_last fuel : forall this n o s,
  exists new,
    added s (snd (executeWithRetry fuel this n o s)) new
    /\ ((failures new = []
         /\ forall e, fst (executeWithRetry fuel this n o s) <> Throw (FromNext e))
        \/ (exists e pre,
              new = (pre ++ [Delegated (Some e)])%list
              /\ failures pre = []
              /\ fst (executeWithRetry fuel this n o s) = Throw (FromNext e))).
Proof.
  unfold added.
  induction fuel as [| fuel IH]; intros this n o s.
  - exists []. cbn. rewrite app_nil_r. split; [reflexivity |]. left. split; congruence.
  - rewrite executeWithRetry_step.
    destruct (nextMiddleware_execute _ _) as [[[e |] c] w]; cbv zeta.
    + exists [Delegated (Some e)]. split; [reflexivity |].
      right. exists e, []. auto.
    + set (s1 := mkState _ _ _ _).
      pose proof (silent_eligible n o s1) as [_ Hown].
      destruct (fst (eligible n o s1)) as [[|] | [e | msg] |]; try contradiction.
      * pose proof (internal_prepare this (S n) o s1) as (_ & Ht & Hown').
        destruct (prepare this (S n) o s1) as [[d | [e | msg] |] s2];
          cbn in Ht, Hown'; try contradiction.
        -- destruct (IH this (S n) o (after_sleep d s2)) as (new & Ea & Hn).
           exists ([Delegated None; Slept (JS.mul d (Num 1000))] ++ new)%list.
           split.
           ++ rewrite Ea. cbn [after_sleep st_trace]. rewrite Ht. subst s1; cbn.
              rewrite <- !app_assoc. reflexivity.
           ++ destruct Hn as [[Hf Hr] | (e & pre & -> & Hf & Hr)].
              ** left. split; [exact Hf | exact Hr].
              ** right. exists e, ([Delegated None; Slept (JS.mul d (Num 1000))] ++ pre)%list.
                 split; [| split; [exact Hf | exact Hr]].
                 rewrite <- app_assoc. reflexivity.
        -- exists [Delegated None]. split; [cbn; rewrite Ht; reflexivity |].
           left. split; [reflexivity | cbn; congruence].
      * exists [Delegated None]. split; [reflexivity |].
        left. split; [reflexivity | cbn; congruence].
      * exists [Delegated None]. split; [reflexivity |].
        left. split; [reflexivity | cbn; congruence].
Qed.

(** C2. If the delegated call throws, [executeWithRetry] throws that
    same error and the failed call is the last thing it did: its state
    is the one the delegate left, with no further delegate invocation
    and no suspension.  This holds for the first invocation of a call
    and, through the recursion, for every later one: in any run either
    no invocation threw and the result is not a failure of the
    pipeline, or exactly one did, it is the last event of the run, and
    the run ends in that failure. *)
Theorem executeWithRetry_propagates_failure fuel this n o s :
  (forall e c w,
      nextMiddleware_execute (st_context s) (st_world s) = (Some e, c, w) ->
      executeWithRetry (S fuel) this n o s =
      (Throw (FromNext e),
       mkState c (st_heap s) w (st_trace s ++ [Delegated (Some e)])%list))
  /\ exists new,
       added s (snd (executeWithRetry fuel this n o s)) new
       /\ ((failures new = []
            /\ forall e, fst (executeWithRetry fuel this n o s) <> Throw (FromNext e))
           \/ (exists e pre,
                 new = (pre ++ [Delegated (Some e)])%list
                 /\ failures pre = []
                 /\ fst (executeWithRetry fuel this n o s) = Throw (FromNext e))).
Proof.
  split.
  - intros e c w E. rewrite executeWithRetry_step, E. reflexivity.
  - apply executeWithRetry_failure_last.
Qed.

End Propagation.

(** ** The length of the retry loop *)

Section Loop.

Context `{Environment}.

Import RetryHandler.

Lemma eligible_fst_true n o s :
  fst (eligible n o s) = Return true -> eligible n o s = (Return true, s).
Proof.
  intros E. pose proof (silent_eligible n o s) as [Es _].
  destruct (eligible n o s) as [r s']. cbn in *. congruence.
Qed.

(** Right after a retry the condition of the source,
    [options.maxRetries === retryAttempts], cannot hold again: the
    counter has moved on by one. *)
Lemma second_turn_is_last fuel this n o s1 d s2 :
  fst (eligible n o s1) = Return true ->
  st_heap s2 = st_heap s1 ->
  executeWithRetry (S fuel) this (S n) o (after_sleep d s2) =
  let '(outcome, c, w) :=
    nextMiddleware_execute (st_context s2)
      (setTimeout (JS.mul d (Num 1000)) (st_world s2)) in
  (match outcome with Some e => Throw (FromNext e) | None => Return tt end,
   mkState c (st_heap s2) w
     (st_trace s2 ++ [Slept (JS.mul d (Num 1000)); Delegated outcome])%list).
Proof.
  intros E Hh. apply eligible_fst_true, eligible_true_iff in E
    as (cfg & r & Ho & Hg & _).
  rewrite executeWithRetry_step. cbn [after_sleep st_context st_world st_heap st_trace].
  destruct (nextMiddleware_execute _ _) as [[[e |] c] w]; cbv zeta;
    rewrite <- app_assoc; [reflexivity |].
  rewrite (eligible_gate_closed (S n) o _ cfg);
    [reflexivity | cbn; congruence | apply strict_eq_succ, Hg].
Qed.

(** While the attempt count is below [maxRetries] the condition of the
    source is false: the call returns after the one invocation. *)
Lemma no_retry_below_maxRetries fuel this n o s cfg m c w :
  st_heap s !! o = Some cfg ->
  RetryHandlerOptions.maxRetries cfg = Num m ->
  (inject_Z (Z.of_nat n) < m)%Q ->
  nextMiddleware_execute (st_context s) (st_world s) = (None, c, w) ->
  executeWithRetry (S fuel) this n o s =
  (Return tt, mkState c (st_heap s) w (st_trace s ++ [Delegated None])%list).
Proof.
  intros Ho Hm Hlt E. rewrite executeWithRetry_step, E. cbv zeta.
  rewrite (eligible_gate_closed n o _ cfg);
    [reflexivity | exact Ho | rewrite Hm; apply strict_eq_below, Hlt].
Qed.

(** Two levels of recursion are all a call ever uses: it settles, and
    more fuel changes nothing. *)
Lemma executeWithRetry_settles fuel this n o s :
  executeWithRetry (S (S fuel)) this n o s = executeWithRetry 2 this n o s
  /\ fst (executeWithRetry 2 this n o s) <> Pending.
Proof.
  rewrite !(executeWithRetry_step _ this n o s).
  destruct (nextMiddleware_execute _ _) as [[[e |] c] w]; cbv zeta;
    [split; [reflexivity | cbn; congruence] |].
  set (s1 := mkState _ _ _ _).
  pose proof (silent_eligible n o s1) as [_ Hown].
  destruct (fst (eligible n o s1)) as [[|] | [e | msg] |] eqn:E; try contradiction;
    try (split; [reflexivity | cbn; congruence]).
  pose proof (internal_prepare this (S n) o s1) as (Hh & _ & Hown').
  destruct (prepare this (S n) o s1) as [[d | [e | msg] |] s2];
    cbn in Hh, Hown'; try contradiction;
    try (split; [reflexivity | cbn; congruence]).
  rewrite !(second_turn_is_last _ this n o s1 d s2 E Hh).
  destruct (nextMiddleware_execute _ _) as [[[e |] c'] w'];
    split; try reflexivity; cbn; congruence.
Qed.

(** A call makes at most two delegate invocations and suspends itself
    at most once, whatever the configuration. *)
Lemma executeWithRetry_at_most_one_retry this n o s :
  exists new,
    added s (snd (executeWithRetry 2 this n o s)) new
    /\ (delegations new <= 2)%nat /\ (suspensions new <= 1)%nat.
Proof.
  unfold added. rewrite (executeWithRetry_step _ this n o s).
  destruct (nextMiddleware_execute _ _) as [[[e |] c] w]; cbv zeta;
    [exists [Delegated (Some e)]; cbn; split; [reflexivity | lia] |].
  set (s1 := mkState _ _ _ _).
  pose proof (silent_eligible n o s1) as [_ Hown].
  destruct (fst (eligible n o s1)) as [[|] | [e | msg] |] eqn:E; try contradiction;
    try (exists [Delegated None]; cbn; split; [reflexivity | lia]).
  pose proof (internal_prepare this (S n) o s1) as (Hh & Ht & Hown').
  destruct (prepare this (S n) o s1) as [[d | [e | msg] |] s2];
    cbn in Hh, Ht, Hown'; try contradiction;
    try (exists [Delegated None]; cbn; split; [rewrite Ht; reflexivity | lia]).
  rewrite (second_turn_is_last _ this n o s1 d s2 E Hh).
  destruct (nextMiddleware_execute _ _) as [[out c'] w'].
  exists [Delegated None; Slept (JS.mul d (Num 1000)); Delegated out].
  cbn. rewrite Ht, <- app_assoc. split; [reflexivity | lia].
Qed.

End Loop.

(** ** The resend-safety check (C3) *)

Section ResendSafety.

Context `{Environment}.

Import RetryHandler.

Lemma get_is_not_a_write_method : ~ write_method (Some RequestMethod.GET).
Proof. unfold write_method, RequestMethod.GET. intros [E | [E | E]]; discriminate. Qed.

(** C3. [isBuffered] returns [true] exactly when the request's method
    is PUT, PATCH or POST, its Content-Type is not
    "application/octet-stream", and the response's Transfer-Encoding
    is "chunked".  For a GET request it returns [false], and a call of
    [executeWithRetry] whose delegate leaves a GET request in the
    context invokes the delegate once and does nothing more, whatever
    the status of the response. *)
Theorem isBuffered_iff_resend_safe request options response s :
  (isBuffered request options (Some response) s = (Return true, s)
   <-> resend_safe request options response)
  /\ (request_method request options = Some RequestMethod.GET ->
      isBuffered request options (Some response) s = (Return false, s))
  /\ (forall fuel this n o outcome c w,
        nextMiddleware_execute (st_context s) (st_world s) = (outcome, c, w) ->
        request_method (Context.request c) (Context.options c)
        = Some RequestMethod.GET ->
        added s (snd (executeWithRetry (S fuel) this n o s)) [Delegated outcome]).
Proof.
  split; [apply isBuffered_true_iff |]. split.
  - intros Hget.
    apply (isBuffered_not_write _ _ _ _ _ Hget get_is_not_a_write_method).
  - intros fuel this n o outcome c w E Hget. unfold added.
    rewrite executeWithRetry_step, E. cbv zeta.
    destruct outcome as [e |]; [reflexivity |].
    set (s1 := mkState _ _ _ _).
    destruct (fst (eligible n o s1)) as [[|] | t |] eqn:El; try reflexivity.
    apply eligible_fst_true, eligible_true_iff in El
      as (cfg & r & _ & _ & _ & _ & (Hw & _) & _).
    subst s1; cbn in Hw. rewrite Hget in Hw.
    destruct (get_is_not_a_write_method Hw).
Qed.

End ResendSafety.

(** ** The delay (C4, C5, C6) *)

Section Delay.

Context `{Environment}.

Import RetryHandler.

Lemma newDelay_retry_after response n d s ra :
  response_header response RETRY_AFTER_HEADER = Some ra ->
  getDelay_newDelay (Some response) n d s =
  if JS.isNaN (Number ra) then
    let (now, w) := Date_now (st_world s) in
    (Return (JS.Math_round (JS.div (JS.sub (Date_getTime ra) now) (Num 1000))),
     set_world w s)
  else (Return (Number ra), s).
Proof.
  unfold response_header, getDelay_newDelay, member, bind, ret, ask.
  intros E. destruct (headers response) as [h |]; [| discriminate].
  cbv beta iota. rewrite E. destruct (JS.isNaN (Number ra)); [| reflexivity].
  destruct (Date_now (st_world s)); reflexivity.
Qed.

Lemma newDelay_backoff response n d s :
  response_header response RETRY_AFTER_HEADER = None ->
  getDelay_newDelay (Some response) n d s =
  let (r, w) := Math_random (st_world s) in
  (Return (JS.mul (JS.add (backoff_base n) (JS.toFixed3 r)) d), set_world w s).
Proof.
  unfold response_header, getDelay_newDelay, getExponentialBackOffTime, member,
    bind, ret, ask, backoff_base.
  intros E.
  destruct (headers response) as [h |]; cbv beta iota; [rewrite E |];
    destruct (Math_random (st_world s)); reflexivity.
Qed.

(** With a response at hand the computation of [newDelay] returns,
    and touches nothing but the outside world. *)
Lemma newDelay_returns response n d s :
  exists nd w, getDelay_newDelay (Some response) n d s = (Return nd, set_world w s).
Proof.
  destruct (response_header response RETRY_AFTER_HEADER) as [ra |] eqn:E.
  - rewrite (newDelay_retry_after _ _ _ _ _ E).
    destruct (JS.isNaN _); [destruct (Date_now _); eauto |].
    exists (Number ra), (st_world s). destruct s; reflexivity.
  - rewrite (newDelay_backoff _ _ _ _ E). destruct (Math_random _); eauto.
Qed.

(** [getDelay] is the minimum of [newDelay] and the [maxDelay] of the
    object [this.options] refers to. *)
Lemma getDelay_run this response n d s cfg :
  st_heap s !! options this = Some cfg ->
  exists nd w,
    getDelay_newDelay (Some response) n d s = (Return nd, set_world w s)
    /\ getDelay this (Some response) n d s =
       (Return (JS.Math_min nd (RetryHandlerOptions.maxDelay cfg)), set_world w s).
Proof.
  intros Ho. destruct (newDelay_returns response n d s) as (nd & w & E).
  exists nd, w. split; [exact E |].
  unfold getDelay, bind, deref, ret. rewrite E. cbn. rewrite Ho. reflexivity.
Qed.

Lemma Math_min_numbers x m :
  exists v, JS.Math_min (Num x) (Num m) = Num v
            /\ (v <= m)%Q /\ (v <= x)%Q /\ (v = x \/ v = m).
Proof.
  cbn. destruct (Qle_bool x m) eqn:E.
  - apply Qle_bool_iff in E. exists x. repeat split; auto. lra.
  - exists m. assert (~ (x <= m)%Q) by (rewrite <- Qle_bool_iff; congruence).
    repeat split; auto; lra.
Qed.

(** C4, as the code has it.  [getDelay] returns [Math.min] of the
    computed delay and the [maxDelay] of [this.options], whether the
    computed delay comes from a Retry-After header or from the
    backoff.  When both are numbers the result is at most [maxDelay]
    (and is one of the two); when the computed delay is [NaN] so is
    the result. *)
Theorem getDelay_is_min this response n d s cfg :
  st_heap s !! options this = Some cfg ->
  exists nd w,
    getDelay_newDelay (Some response) n d s = (Return nd, set_world w s)
    /\ getDelay this (Some response) n d s =
       (Return (JS.Math_min nd (RetryHandlerOptions.maxDelay cfg)), set_world w s)
    /\ (forall x m,
          nd = Num x -> RetryHandlerOptions.maxDelay cfg = Num m ->
          at_most (JS.Math_min nd (RetryHandlerOptions.maxDelay cfg))
                  (RetryHandlerOptions.maxDelay cfg)
          /\ (JS.Math_min nd (RetryHandlerOptions.maxDelay cfg) = nd
              \/ JS.Math_min nd (RetryHandlerOptions.maxDelay cfg)
                 = RetryHandlerOptions.maxDelay cfg))
    /\ (nd = NaN -> JS.Math_min nd (RetryHandlerOptions.maxDelay cfg) = NaN).
Proof.
  intros Ho. destruct (getDelay_run this response n d s cfg Ho) as (nd & w & E1 & E2).
  exists nd, w. split; [exact E1 |]. split; [exact E2 |]. split.
  - intros x m -> ->.
    destruct (Math_min_numbers x m) as (v & -> & Hm & _ & [-> | ->]); auto.
  - intros ->. reflexivity.
Qed.

Lemma round_whole_seconds (y : Q) :
  exists k : Z,
    JS.Math_round (Num y) = Num (inject_Z k)
    /\ (y - (1 # 2) < inject_Z k <= y + (1 # 2))%Q
    /\ ((y <= 0)%Q -> (k <= 0)%Z).
Proof.
  exists (Qfloor (y + (1 # 2))). split; [reflexivity |].
  pose proof (Qfloor_le (y + (1 # 2))) as Hle.
  pose proof (Qlt_floor (y + (1 # 2))) as Hlt.
  rewrite inject_Z_plus in Hlt. change (inject_Z 1) with 1%Q in Hlt.
  split; [split; lra |].
  intros Hy. apply (Qfloor_resp_le _ (1 # 2)). lra.
Qed.

(** C5. With a Retry-After header [ra]: if [Number(ra)] is a number,
    that number is the delay before the cap (so "2" gives exactly 2);
    otherwise the delay before the cap is
    [Math.round((new Date(ra).getTime() - Date.now()) / 1000)], which
    for a timestamp [t] and a clock reading [t0] in milliseconds is
    the whole number of seconds nearest to [(t - t0) / 1000], and is
    zero or negative when the timestamp is not in the future. *)
Theorem retry_after_delay response n d s ra :
  response_header response RETRY_AFTER_HEADER = Some ra ->
  (forall q, Number ra = Num q ->
     getDelay_newDelay (Some response) n d s = (Return (Num q), s))
  /\ (ra = "2" -> getDelay_newDelay (Some response) n d s = (Return (Num 2), s))
  /\ (Number ra = NaN ->
      forall now w, Date_now (st_world s) = (now, w) ->
        getDelay_newDelay (Some response) n d s =
        (Return (JS.Math_round (JS.div (JS.sub (Date_getTime ra) now) (Num 1000))),
         set_world w s)
        /\ forall t t0, Date_getTime ra = Num t -> now = Num t0 ->
             exists k : Z,
               JS.Math_round (JS.div (JS.sub (Date_getTime ra) now) (Num 1000))
               = Num (inject_Z k)
               /\ ((t - t0) / 1000 - (1 # 2) < inject_Z k
                   <= (t - t0) / 1000 + (1 # 2))%Q
               /\ ((t <= t0)%Q -> (k <= 0)%Z)).
Proof.
  intros E. pose proof (newDelay_retry_after response n d s ra E) as R.
  split; [| split].
  - intros q Hq. rewrite R, Hq. reflexivity.
  - intros ->. rewrite R. reflexivity.
  - intros Hnan now w Hnow. rewrite R, Hnan, Hnow. split; [reflexivity |].
    intros t t0 -> ->.
    destruct (round_whole_seconds ((t - t0) / 1000)) as (k & Hk & Hb & Hneg).
    exists k. split; [exact Hk |]. split; [exact Hb |].
    intros Ht. apply Hneg. unfold Qdiv. change (/ 1000)%Q with (1 # 1000)%Q. lra.
Qed.

Lemma backoff_base_0 : backoff_base 0 = Num 0.
Proof. reflexivity. Qed.

Lemma backoff_base_S k : same_number (backoff_base (S k)) (Num (inject_Z (2 ^ Z.of_nat k))).
Proof.
  unfold backoff_base, JS.pow2, JS.sub, JS.mul, JS.lift2, JS.Math_round, same_number.
  replace (2 ^ Z.of_nat (S k))%Z with (2 * 2 ^ Z.of_nat k)%Z
    by (rewrite Nat2Z.inj_succ, Z.pow_succ_r; lia).
  rewrite inject_Z_mult. change (inject_Z 2) with 2%Q.
  assert (((1 # 2) * (2 * inject_Z (2 ^ Z.of_nat k) - 1) + (1 # 2)
           == inject_Z (2 ^ Z.of_nat k))%Q) as -> by lra.
  rewrite Qfloor_Z. reflexivity.
Qed.

Lemma toFixed3_range (r : Q) :
  (0 <= r < 1)%Q ->
  exists k : Z, (0 <= k <= 1000)%Z /\ JS.toFixed3 r = Num (inject_Z k / 1000).
Proof.
  intros [H0 H1]. exists (Qfloor (r * 1000 + (1 # 2))). split; [| reflexivity].
  split.
  - apply (Qfloor_resp_le 0). lra.
  - apply (Qfloor_resp_le _ (1000 + (1 # 2))). lra.
Qed.

(** C6, as the code has it.  Without a Retry-After header the delay
    before the cap is [(base + jitter) * delay], where [base] is
    [Math.round(0.5 * (2 ** attempts - 1))] and [jitter] is the value
    of [Math.random()] rounded to three decimals: one of 0, 0.001,
    ..., 1.  [Math.round] rounds a half up, so [base] is 0 for no
    attempt and [2 ** (attempts - 1)] after that: 4 for three
    attempts. *)
Theorem backoff_delay response n d s r w :
  response_header response RETRY_AFTER_HEADER = None ->
  Math_random (st_world s) = (r, w) ->
  getDelay_newDelay (Some response) n d s =
  (Return (JS.mul (JS.add (backoff_base n) (JS.toFixed3 r)) d), set_world w s)
  /\ ((0 <= r < 1)%Q ->
      exists k : Z, (0 <= k <= 1000)%Z /\ JS.toFixed3 r = Num (inject_Z k / 1000))
  /\ backoff_base 0 = Num 0
  /\ same_number (backoff_base 3) (Num 4)
  /\ (forall k, same_number (backoff_base (S k)) (Num (inject_Z (2 ^ Z.of_nat k)))).
Proof.
  intros E Hr. rewrite (newDelay_backoff _ _ _ _ E), Hr.
  split; [reflexivity |]. split; [apply toFixed3_range |].
  split; [apply backoff_base_0 |]. split; [apply (backoff_base_S 2) |].
  apply backoff_base_S.
Qed.

End Delay.

(** ** The store of options objects (C8) *)

Section Store.

Context `{Environment}.

Import RetryHandler.

Lemma assign_own_properties target o : assign target (own_properties o) = o.
Proof. destruct o; reflexivity. Qed.

Lemma execute_unfold fuel this s :
  execute fuel this s =
  (o <- effective_options this ;; executeWithRetry fuel this 0 o) s.
Proof.
  unfold execute, effective_options. rewrite try_catch_rethrow.
  repeat (rewrite bind_assoc; apply bind_ext; intros ? ?).
  reflexivity.
Qed.

(** Building the per-call options: a fresh object, first made a copy
    of [this.options], then overlaid with the override. *)
Lemma effective_options_run this s cfg :
  st_heap s !! options this = Some cfg ->
  let o := fresh (dom (st_heap s)) in
  effective_options this s =
  (Return o,
   set_heap (<[o := effective cfg (override_of (st_context s))]> (st_heap s)) s)
  /\ st_heap s !! o = None
  /\ o <> options this.
Proof.
  intros Ho o.
  assert (st_heap s !! o = None) as Hfresh
    by (apply not_elem_of_dom, is_fresh).
  assert (o <> options this) as Hne by congruence.
  split; [| auto].
  unfold effective_options, new_object, Object_assign, bind, deref, get_context, ret.
  fold o. cbn [st_heap st_context].
  rewrite lookup_insert_ne by exact Hne. rewrite Ho.
  cbn [st_heap st_context st_world st_trace].
  rewrite lookup_insert_eq. cbn [st_heap st_context st_world st_trace].
  rewrite insert_insert_eq, assign_own_properties.
  unfold override_of, effective, set_heap.
  destruct (Context.middlewareControl (st_context s)) as [mc |]; [| reflexivity].
  cbn [st_heap]. rewrite lookup_insert_eq.
  destruct (getMiddlewareOptions mc RetryHandlerOptions.constructor_name) as [b |];
    [| reflexivity].
  cbn [st_heap st_context st_world st_trace]. rewrite insert_insert_eq. reflexivity.
Qed.

(** The retry loop writes to no options object. *)
Lemma executeWithRetry_heap fuel : forall this n o s,
  st_heap (snd (executeWithRetry fuel this n o s)) = st_heap s.
Proof.
  induction fuel as [| fuel IH]; intros this n o s; [reflexivity |].
  rewrite executeWithRetry_step.
  destruct (nextMiddleware_execute _ _) as [[[e |] c] w]; cbv zeta; [reflexivity |].
  set (s1 := mkState _ _ _ _).
  destruct (fst (eligible n o s1)) as [[|] | t |]; try reflexivity.
  pose proof (internal_prepare this (S n) o s1) as (Hh & _ & _).
  destruct (prepare this (S n) o s1) as [[d | t |] s2]; cbn in Hh; try exact Hh.
  rewrite IH. exact Hh.
Qed.

(** C8. In a handler whose [this.options] refers to the object [cfg],
    [execute] builds the per-call options in a fresh object: at an
    address that held nothing and is not that of [this.options].  The
    store after the build is the old one plus that object, which
    holds [cfg] overlaid with the override of the context, and
    [this.options] still refers to [cfg]: after the build, and after
    the whole call. *)
Theorem execute_keeps_this_options fuel this s cfg :
  st_heap s !! options this = Some cfg ->
  (exists o,
      effective_options this s =
      (Return o,
       set_heap (<[o := effective cfg (override_of (st_context s))]> (st_heap s)) s)
      /\ st_heap s !! o = None
      /\ o <> options this
      /\ st_heap (snd (effective_options this s)) !! options this = Some cfg)
  /\ st_heap (snd (execute fuel this s)) !! options this = Some cfg.
Proof.
  intros Ho.
  destruct (effective_options_run this s cfg Ho) as (E & Hfresh & Hne).
  split.
  - eexists. split; [exact E |]. split; [exact Hfresh |]. split; [exact Hne |].
    rewrite E. cbn. rewrite lookup_insert_ne by exact Hne. exact Ho.
  - rewrite execute_unfold. unfold bind. rewrite E.
    rewrite executeWithRetry_heap. cbn.
    rewrite lookup_insert_ne by exact Hne. exact Ho.
Qed.

End Store.

(** ** The cap of the delay (C10) *)

Section Cap.

Context `{Environment}.

Import RetryHandler.

Variables (this : t) (o : nat).

Notation "m1 ~ m2" := (related this o m1 m2) (at level 70).

Lemma related_ret {A} (a : A) : ret a ~ ret a.
Proof. intros s1 s2 Hs. auto. Qed.

Lemma related_throw {A} e : @throw _ A e ~ throw e.
Proof. intros s1 s2 Hs. auto. Qed.

Lemma related_bind {A B} (m1 m2 : M A) (k1 k2 : A -> M B) :
  m1 ~ m2 -> (forall a, k1 a ~ k2 a) -> bind m1 k1 ~ bind m2 k2.
Proof.
  intros Hm Hk s1 s2 Hs. unfold bind. destruct (Hm s1 s2 Hs) as [Er Ea].
  destruct (m1 s1) as [r1 s1'], (m2 s2) as [r2 s2']. cbn in Er, Ea. subst r2.
  destruct r1 as [a | e |]; [apply Hk, Ea | auto | auto].
Qed.

Lemma related_and_then (a1 a2 b1 b2 : M bool) :
  a1 ~ a2 -> b1 ~ b2 -> and_then a1 b1 ~ and_then a2 b2.
Proof.
  intros Ha Hb. apply related_bind; [exact Ha |].
  intros [|]; [exact Hb | apply related_ret].
Qed.

Lemma related_try_catch {A} (b1 b2 : M A) h1 h2 :
  b1 ~ b2 -> (forall e, h1 e ~ h2 e) -> try_catch b1 h1 ~ try_catch b2 h2.
Proof.
  intros Hb Hh s1 s2 Hs. unfold try_catch. destruct (Hb s1 s2 Hs) as [Er Ea].
  destruct (b1 s1) as [r1 s1'], (b2 s2) as [r2 s2']. cbn in Er, Ea. subst r2.
  destruct r1 as [a | e |]; [auto | apply Hh, Ea | auto].
Qed.

Lemma related_get_context : get_context ~ get_context.
Proof. intros s1 s2 Hs. cbn. split; [| exact Hs]. destruct Hs as (-> & _). reflexivity. Qed.

Lemma related_set_context c : set_context c ~ set_context c.
Proof.
  intros s1 s2 (Hc & Hw & Ht & Hthis & Ho). cbn. split; [reflexivity |].
  repeat split; assumption.
Qed.

Lemma related_emit e : emit e ~ emit e.
Proof.
  intros s1 s2 (Hc & Hw & Ht & Hthis & Ho). cbn. split; [reflexivity |].
  repeat split; try assumption. cbn. congruence.
Qed.

Lemma related_ask {A} (f : World -> A * World) : ask f ~ ask f.
Proof.
  intros s1 s2 (Hc & Hw & Ht & Hthis & Ho). unfold ask. rewrite Hw.
  destruct (f (st_world s2)) as [a w]. cbn. split; [reflexivity |].
  repeat split; assumption.
Qed.

Lemma related_deref_this : deref (options this) ~ deref (options this).
Proof.
  intros s1 s2 Hs. pose proof Hs as (_ & _ & _ & Hthis & _). unfold deref.
  rewrite Hthis. destruct (st_heap s2 !! options this); cbn; auto.
Qed.

(** Reading the per-call object is harmless as long as what is done
    with it does not look at its [maxDelay]. *)
Lemma related_deref_options {B} (k1 k2 : RetryHandlerOptions.t -> M B) :
  (forall c1 c2, same_but_maxDelay c1 c2 -> k1 c1 ~ k2 c2) ->
  bind (deref o) k1 ~ bind (deref o) k2.
Proof.
  intros Hk s1 s2 Hs. pose proof Hs as (_ & _ & _ & _ & Ho). unfold bind, deref.
  destruct (st_heap s1 !! o) as [c1 |], (st_heap s2 !! o) as [c2 |];
    try contradiction; [apply Hk; assumption | auto].
Qed.

Lemma related_nextMiddleware : nextMiddleware ~ nextMiddleware.
Proof.
  intros s1 s2 (Hc & Hw & Ht & Hthis & Ho). rewrite !nextMiddleware_run, Hc, Hw, Ht.
  destruct (nextMiddleware_execute _ _) as [[out c] w]. cbn.
  split; [reflexivity |]. repeat split; assumption.
Qed.

Lemma related_member {A B} (x : option A) (f : A -> B) : member x f ~ member x f.
Proof. destruct x; [apply related_ret | apply related_throw]. Qed.

End Cap.

Create HintDb related.
#[export] Hint Resolve related_ret related_throw related_get_context related_set_context
  related_emit related_ask related_deref_this related_nextMiddleware related_member
  : related.

(** Walk down two chains of binds side by side. *)
Ltac walk2 :=
  repeat first
    [ solve [auto with related]
    | progress cbv zeta
    | match goal with
      | |- related _ _ (match ?x with _ => _ end) _ => destruct x
      | |- related _ _ (if ?x then _ else _) _ => destruct x
      | |- related _ _ (let (_, _) := ?x in _) _ => destruct x
      end
    | apply related_deref_options;
      let c1 := fresh "c" in let c2 := fresh "c" in
      let Hd := fresh "Hd" in let Hm := fresh "Hm" in let Hs := fresh "Hs" in
      intros c1 c2 (Hd & Hm & Hs); rewrite ?Hd, ?Hm, ?Hs
    | apply related_and_then
    | apply related_try_catch; [| intros ?]
    | apply related_bind; [| intros ?] ].

Section CapOfTheDelay.

Context `{Environment}.

Import RetryHandler.

Variables (this : t) (o : nat).

Lemma related_isRetry response : related this o (isRetry response) (isRetry response).
Proof. unfold isRetry. walk2. Qed.

Lemma related_isBuffered request options response :
  related this o (isBuffered request options response)
                 (isBuffered request options response).
Proof. unfold isBuffered. walk2. Qed.

Lemma related_getDelay response n d :
  related this o (getDelay this response n d) (getDelay this response n d).
Proof. unfold getDelay, getDelay_newDelay, getExponentialBackOffTime. walk2. Qed.

Lemma related_sleep d : related this o (sleep d) (sleep d).
Proof. unfold sleep. walk2. Qed.

Lemma related_executeWithRetry fuel : forall n,
  related this o (executeWithRetry fuel this n o) (executeWithRetry fuel this n o).
Proof.
  pose proof related_isRetry. pose proof related_isBuffered.
  pose proof related_getDelay. pose proof related_sleep.
  induction fuel as [| fuel IH]; intros n; cbn [executeWithRetry].
  - intros s1 s2 Hs. auto.
  - walk2.
Qed.

End CapOfTheDelay.

Section PerCallOptions.

Context `{Environment}.

Import RetryHandler.

Lemma outcome_alike {A} this o (r1 r2 : Completion Error A * State) :
  fst r1 = fst r2 -> alike this o (snd r1) (snd r2) -> outcome r1 = outcome r2.
Proof.
  intros Er (Hc & Hw & Ht & _). unfold outcome. congruence.
Qed.

(** The [then] branch of the loop hands the [delay] of the per-call
    object to [getDelay]. *)
Lemma prepare_run this k o s eff :
  st_heap s !! o = Some eff ->
  prepare this k o s =
  getDelay this (Context.response (st_context s)) k (RetryHandlerOptions.delay eff)
    (mkState (announced k (st_context s)) (st_heap s) (st_world s) (st_trace s)).
Proof.
  intros Ho. unfold prepare, announced, bind, get_context, set_context, deref.
  destruct (setRequestHeader _ _ _ _) as [rq fo]. cbn. rewrite Ho. reflexivity.
Qed.

(** C10. [execute] runs the retry loop on a per-call options object
    (at a fresh address [o]) that holds the configuration of the
    handler overlaid with the override of the context.  The
    [maxDelay] of that object is never looked at: with any other
    value in its place the call ends the same way, with the same
    context, world and trace (the same suspensions).  The cap that
    [getDelay] applies is the [maxDelay] of the object [this.options]
    refers to.  The other three fields of the per-call object are the
    ones in force: the loop retries exactly when
    [maxRetries === retryAttempts] and the three other conditions
    hold for its [maxRetries] and [shouldRetry], and it is its [delay]
    that goes to [getDelay]. *)
Theorem per_call_maxDelay_is_not_the_cap fuel this s cfg :
  st_heap s !! options this = Some cfg ->
  let o := fresh (dom (st_heap s)) in
  let eff := effective cfg (override_of (st_context s)) in
  let run c := executeWithRetry fuel this 0 o (set_heap (<[o := c]> (st_heap s)) s) in
  execute fuel this s = run eff
  /\ (forall x, outcome (run (with_maxDelay x eff)) = outcome (run eff))
  /\ (forall response k d s',
        st_heap s' !! options this = Some cfg ->
        exists nd w,
          getDelay_newDelay (Some response) k d s' = (Return nd, set_world w s')
          /\ getDelay this (Some response) k d s' =
             (Return (JS.Math_min nd (RetryHandlerOptions.maxDelay cfg)),
              set_world w s'))
  /\ (forall k s',
        st_heap s' !! o = Some eff ->
        (eligible k o s' = (Return true, s')
         <-> exists r,
               JS.strict_eq (RetryHandlerOptions.maxRetries eff) (JS.of_nat k) = true
               /\ Context.response (st_context s') = Some r
               /\ retryable (status r)
               /\ resend_safe (Context.request (st_context s'))
                              (Context.options (st_context s')) r
               /\ RetryHandlerOptions.shouldRetry eff (RetryHandlerOptions.delay eff) k
                    (Context.request (st_context s')) (Context.options (st_context s'))
                    (Some r) = true)
        /\ prepare this k o s' =
           getDelay this (Context.response (st_context s')) k
             (RetryHandlerOptions.delay eff)
             (mkState (announced k (st_context s')) (st_heap s') (st_world s')
                      (st_trace s'))).
Proof.
  intros Ho o eff run.
  destruct (effective_options_run this s cfg Ho) as (E & Hfresh & Hne).
  fold o in E, Hfresh, Hne. fold eff in E.
  split; [| split; [| split]].
  - rewrite execute_unfold. unfold bind. rewrite E. reflexivity.
  - intros x. subst run. cbv beta.
    apply (outcome_alike this o); apply related_executeWithRetry;
      (repeat split; cbn [set_heap st_context st_world st_trace st_heap];
       [rewrite !lookup_insert_ne by exact Hne; reflexivity
       | rewrite !lookup_insert_eq; repeat split]).
  - intros response k d s' Ho'. apply (getDelay_run this response k d s' cfg Ho').
  - intros k s' Ho'. split; [| apply (prepare_run this k o s' eff Ho')].
    rewrite eligible_true_iff. split.
    + intros (c & r & Hc & Rest). rewrite Ho' in Hc. injection Hc as <-.
      exists r. exact Rest.
    + intros (r & Rest). exists eff, r. split; [exact Ho' | exact Rest].
Qed.

End PerCallOptions.

(** ** The code at work: the attempt budget (C1, C9) and a request
    without options (C7) *)

Section Runs.

Import RetryHandler Scripted.

(** C1.  A POST, a 503 with chunked transfer encoding, a predicate
    that approves, no attempt made yet and [maxRetries = 3]: the
    source tests [options.maxRetries === retryAttempts], so the call
    returns after the one delegate invocation, without suspension and
    without a Retry-Attempt header.  With the attempt count equal to
    [maxRetries] (2 and 2) the same test lets the retry through: the
    header is set to "3", the call suspends itself and invokes the
    delegate a second time. *)
Theorem budget_left_but_no_retry :
  let r := executeWithRetry 5 handler 0 0 (start post (with_maxRetries 3) flaky) in
  let r' := executeWithRetry 5 handler 2 0 (start post (with_maxRetries 2) flaky) in
  (fst r = Return tt
   /\ st_trace (snd r) = [Delegated None]
   /\ Context.response (st_context (snd r)) = Some (chunked 503)
   /\ attempt_header (snd r) = None)
  /\ (fst r' = Return tt
      /\ delegations (st_trace (snd r')) = 2%nat
      /\ suspensions (st_trace (snd r')) = 1%nat
      /\ attempt_header (snd r') = Some "3").
Proof. vm_compute. repeat split. Qed.

(** C9.  Every call of [executeWithRetry] settles, in any
    environment and for any configuration: two levels of recursion
    are all it uses, and the attempt count goes up by one per retry.
    But the loop is not bounded by [maxRetries]: with
    [maxRetries = 0] a call that starts at attempt 0 retries once
    (two delegate invocations and one suspension), and the attempt
    count, as the Retry-Attempt header shows it, ends at 1. *)
Theorem retried_beyond_maxRetries :
  (forall (E : Environment) fuel this n o s,
      executeWithRetry (S (S fuel)) this n o s = executeWithRetry 2 this n o s
      /\ fst (executeWithRetry 2 this n o s) <> Pending)
  /\ let r := executeWithRetry 5 handler 0 0 (start post (with_maxRetries 0) flaky) in
     fst r = Return tt
     /\ delegations (st_trace (snd r)) = 2%nat
     /\ suspensions (st_trace (snd r)) = 1%nat
     /\ attempt_header (snd r) = Some "1"
     /\ Context.response (st_context (snd r)) = Some (chunked 503).
Proof.
  split; [intros E fuel this n o s; apply executeWithRetry_settles |].
  vm_compute. repeat split.
Qed.

(** C7.  A request given as a plain url and no request options: the
    delegate returns a 503 without failing, and [execute] fails with
    a [TypeError] raised in [isBuffered], where [options.method] is
    read from [undefined]. *)
Theorem execute_throws_on_its_own :
  let r := execute 5 handler (start bare (with_maxRetries 0) flaky) in
  fst r = Throw (TypeError "Cannot read properties of undefined")
  /\ st_trace (snd r) = [Delegated None]
  /\ failures (st_trace (snd r)) = []
  /\ fst (isBuffered (Url "/me/messages") None (Some (chunked 503))
                     (start bare (with_maxRetries 0) flaky))
     = Throw (TypeError "Cannot read properties of undefined").
Proof. vm_compute. repeat split. Qed.

End Runs.

(** ** Instances in the scripted environment *)

Section Instances.

Import RetryHandler Scripted.

(** C2 at work: the transport fails outright; the call throws that
    very error after the one invocation. *)
Lemma propagates_failure_witness :
  nextMiddleware_execute post broken = (Some "connection reset", post, mkWorld [] 0 [])
  /\ executeWithRetry 4 handler 0 0 (start post (with_maxRetries 3) broken)
     = (Throw (FromNext "connection reset"),
        mkState post {[ 0%nat := with_maxRetries 3 ]} (mkWorld [] 0 [])
                [Delegated (Some "connection reset")]).
Proof.
  split; [reflexivity |].
  apply (proj1 (executeWithRetry_propagates_failure
                  3 handler 0 0 (start post (with_maxRetries 3) broken))).
  reflexivity.
Defined.

(** C3 at work: a GET is not safe to resend, and is not retried. *)
Lemma isBuffered_witness :
  request_method (Context.request get) (Context.options get) = Some RequestMethod.GET
  /\ isBuffered (Context.request get) (Context.options get) (Some (chunked 503))
                (start get (with_maxRetries 0) flaky)
     = (Return false, start get (with_maxRetries 0) flaky)
  /\ added (start get (with_maxRetries 0) flaky)
           (snd (executeWithRetry 3 handler 0 0 (start get (with_maxRetries 0) flaky)))
           [Delegated None].
Proof.
  split; [reflexivity |].
  destruct (isBuffered_iff_resend_safe (Context.request get) (Context.options get)
              (chunked 503) (start get (with_maxRetries 0) flaky)) as (_ & Hget & Hrun).
  split; [apply Hget; reflexivity |].
  apply (Hrun 2%nat handler 0%nat 0%nat None
              (Context.make (Context.request get) (Context.options get)
                            (Some (chunked 503)) None)
              (mkWorld [inr (chunked 503); inr (chunked 200)] 0 []));
    reflexivity.
Defined.

(** C4 as stated fails: a Retry-After value that is neither a number
    nor a date makes the delay [NaN], and [NaN] is not at most
    [maxDelay]. *)
Lemma getDelay_not_at_most_maxDelay :
  let cfg := with_maxRetries 3 in
  let r := getDelay handler (Some (retry_after "soon")) 1 (Num 3) (start post cfg flaky) in
  fst r = Return NaN
  /\ ~ at_most NaN (RetryHandlerOptions.getMaxDelay cfg).
Proof. split; [vm_compute; reflexivity | intros []]. Qed.

(** C4 as amended, at work: a Retry-After of 600 seconds is cut down
    to the 180 of [maxDelay]. *)
Lemma getDelay_is_min_witness :
  let s := start post (with_maxRetries 3) flaky in
  st_heap s !! options handler = Some (with_maxRetries 3)
  /\ getDelay handler (Some (retry_after "600")) 1 (Num 3) s = (Return (Num 180), s).
Proof.
  cbv zeta. split; [reflexivity |].
  destruct (getDelay_is_min handler (retry_after "600") 1 (Num 3)
              (start post (with_maxRetries 3) flaky) (with_maxRetries 3) eq_refl)
    as (nd & w & E1 & E2 & _).
  vm_compute in E1. injection E1 as <- <-. exact E2.
Defined.

(** C5 at work: "2" is two seconds, and a timestamp one minute after
    the epoch, read 90 seconds after the epoch, is 30 seconds ago. *)
Lemma retry_after_delay_witness :
  let s := start post (with_maxRetries 3) flaky in
  let late := start post (with_maxRetries 3) (mkWorld [] 90000 []) in
  response_header (retry_after "2") RETRY_AFTER_HEADER = Some "2"
  /\ getDelay_newDelay (Some (retry_after "2")) 1 (Num 3) s = (Return (Num 2), s)
  /\ fst (getDelay_newDelay (Some (retry_after "Thu, 01 Jan 1970 00:01:00 GMT"))
                            1 (Num 3) late)
     = Return (Num (-30)).
Proof.
  cbv zeta. split; [reflexivity |]. split.
  - apply (proj1 (proj2 (retry_after_delay (retry_after "2") 1 (Num 3)
                           (start post (with_maxRetries 3) flaky) "2" eq_refl))).
    reflexivity.
  - destruct (retry_after_delay (retry_after "Thu, 01 Jan 1970 00:01:00 GMT") 1 (Num 3)
                (start post (with_maxRetries 3) (mkWorld [] 90000 []))
                "Thu, 01 Jan 1970 00:01:00 GMT" eq_refl) as (_ & _ & Hdate).
    destruct (Hdate eq_refl (Num 90000) (mkWorld [] 90000 []) eq_refl) as [E _].
    rewrite E. reflexivity.
Defined.

(** C6 as stated fails: after three attempts the base is 4, not 3. *)
Lemma backoff_base_3_is_not_3 :
  fst (getExponentialBackOffTime 3 (start post (with_maxRetries 3) flaky))
  = Return (JS.add (backoff_base 3) (JS.toFixed3 0))
  /\ backoff_base 3 = Num 4
  /\ ~ same_number (backoff_base 3) (Num 3).
Proof.
  split; [reflexivity |]. split; [reflexivity |].
  vm_compute. discriminate.
Qed.

(** C6 as amended, at work: three attempts, a base delay of 3 and a
    draw of 0.2504 give (4 + 0.25) * 3 seconds. *)
Lemma backoff_delay_witness :
  let w := mkWorld [] 0 [2504 # 10000] in
  let s := start post (with_maxRetries 3) w in
  response_header (chunked 503) RETRY_AFTER_HEADER = None
  /\ Math_random (st_world s) = (2504 # 10000, mkWorld [] 0 [])
  /\ exists v,
       fst (getDelay_newDelay (Some (chunked 503)) 3 (Num 3) s) = Return (Num v)
       /\ (v == (4 + (250 # 1000)) * 3)%Q.
Proof.
  cbv zeta. split; [reflexivity |]. split; [reflexivity |].
  destruct (backoff_delay (chunked 503) 3 (Num 3)
              (start post (with_maxRetries 3) (mkWorld [] 0 [2504 # 10000]))
              (2504 # 10000) (mkWorld [] 0 []) eq_refl eq_refl) as (E & _).
  rewrite E. eexists. split; [reflexivity |]. reflexivity.
Defined.

(** C8 and C10 at work: a per-call override that sets [delay] to 100,
    [maxRetries] to 0 and [maxDelay] to 2.  The call retries (the
    handler's own [maxRetries] is 3) and waits 100 seconds: the
    overridden delay, under the cap of 180 of [this.options] and not
    under the overridden one. *)

Lemma execute_keeps_this_options_witness :
  let s := start (post_with override) (with_maxRetries 3) flaky in
  st_heap s !! options handler = Some (with_maxRetries 3)
  /\ st_heap (snd (execute 5 handler s)) !! options handler = Some (with_maxRetries 3)
  /\ delegations (st_trace (snd (execute 5 handler s))) = 2%nat.
Proof.
  cbv zeta. split; [reflexivity |]. split; [| vm_compute; reflexivity].
  apply (proj2 (execute_keeps_this_options 5 handler
                  (start (post_with override) (with_maxRetries 3) flaky)
                  (with_maxRetries 3) eq_refl)).
Defined.

Lemma per_call_maxDelay_witness :
  let s := start (post_with override) (with_maxRetries 3) flaky in
  st_heap s !! options handler = Some (with_maxRetries 3)
  /\ execute 5 handler s
     = executeWithRetry 5 handler 0 1
         (set_heap (<[1%nat := assign (with_maxRetries 3) override]> (st_heap s)) s)
  /\ exists ms,
       st_trace (snd (execute 5 handler s))
       = [Delegated None; Slept (Num ms); Delegated None]
       /\ (ms == 100000)%Q.
Proof.
  cbv zeta. split; [reflexivity |].
  split; [| eexists; split; [vm_compute; reflexivity | reflexivity]].
  apply (proj1 (per_call_maxDelay_is_not_the_cap 5 handler
                  (start (post_with override) (with_maxRetries 3) flaky)
                  (with_maxRetries 3) eq_refl)).
Defined.

End Instances.


(** * Further properties of the handler *)

(** ** The status check *)

Section StatusCheck.

Context `{Environment}.

Import RetryHandler.

(** [isRetry] answers [true] for the statuses 429, 503 and 504 and
    [false] for every other status, without touching the state; handed
    [undefined] it throws a [TypeError]. *)
Theorem isRetry_iff_retryable r s :
  (isRetry (Some r) s = (Return true, s) <-> retryable (status r))
  /\ (isRetry (Some r) s = (Return false, s) <-> ~ retryable (status r))
  /\ exists msg, isRetry None s = (Throw (TypeError msg), s).
Proof.
  rewrite isRetry_Some. pose proof (retry_status_codes (status r)) as Hc.
  destruct (negb _) eqn:E.
  - split; [| split; [| apply isRetry_None]].
    + split; [intros _; apply Hc; reflexivity | reflexivity].
    + split; [discriminate | intros Hn; destruct Hn; apply Hc; reflexivity].
  - split; [| split; [| apply isRetry_None]].
    + split; [discriminate | intros Hr; apply Hc in Hr; discriminate].
    + split; [intros _ Hr; apply Hc in Hr; discriminate | reflexivity].
Qed.

End StatusCheck.

(** ** When the loop does not retry *)

Section NoRetry.

Context `{Environment}.

Import RetryHandler.

(** When the condition of the [if] is not true the call is over: the
    state is the one the delegate left. *)
Lemma no_retry_state fuel this n o s c w :
  nextMiddleware_execute (st_context s) (st_world s) = (None, c, w) ->
  fst (eligible n o (mkState c (st_heap s) w (st_trace s ++ [Delegated None])%list))
  <> Return true ->
  snd (executeWithRetry (S fuel) this n o s)
  = mkState c (st_heap s) w (st_trace s ++ [Delegated None])%list.
Proof.
  intros E Hne. rewrite executeWithRetry_step, E. cbv zeta.
  destruct (fst (eligible n o _)) as [[|] | t |]; try reflexivity.
  destruct Hne; reflexivity.
Qed.

Lemma eligible_other_status n o s cfg r :
  st_heap s !! o = Some cfg ->
  Context.response (st_context s) = Some r ->
  ~ retryable (status r) ->
  eligible n o s = (Return false, s).
Proof.
  intros Ho Hr Hst. unfold eligible, and_then, bind, deref, get_context, ret.
  rewrite Ho. cbv beta iota. destruct (JS.strict_eq _ _); [| reflexivity].
  rewrite Hr, isRetry_Some.
  destruct (negb _) eqn:E; [| reflexivity].
  destruct Hst. apply retry_status_codes, E.
Qed.

(** A response whose status is not 429, 503 or 504 ends the call: it
    returns normally after the one delegate invocation, with the
    context and the world as the delegate left them: no header is
    written, no delay computed, no suspension made. *)
Theorem no_retry_on_other_status fuel this n o s c w r cfg :
  nextMiddleware_execute (st_context s) (st_world s) = (None, c, w) ->
  Context.response c = Some r ->
  ~ retryable (status r) ->
  st_heap s !! o = Some cfg ->
  executeWithRetry (S fuel) this n o s
  = (Return tt, mkState c (st_heap s) w (st_trace s ++ [Delegated None])%list).
Proof.
  intros E Hr Hst Ho. rewrite executeWithRetry_step, E. cbv zeta.
  rewrite (eligible_other_status n o _ cfg r); auto.
Qed.

(** A payload that is not safe to resend (a method other than PUT,
    PATCH and POST, a Content-Type of "application/octet-stream", or a
    response that is not chunked) is never resent, whatever the
    status: the call ends in the state the delegate left. *)
Theorem no_retry_of_unsafe_payload fuel this n o s c w r :
  nextMiddleware_execute (st_context s) (st_world s) = (None, c, w) ->
  Context.response c = Some r ->
  ~ resend_safe (Context.request c) (Context.options c) r ->
  snd (executeWithRetry (S fuel) this n o s)
  = mkState c (st_heap s) w (st_trace s ++ [Delegated None])%list.
Proof.
  intros E Hr Hunsafe. apply no_retry_state; [exact E |].
  intros El. apply eligible_fst_true, eligible_true_iff in El
    as (cfg & r' & _ & _ & Hr' & _ & Hsafe & _).
  cbn in Hr', Hsafe. rewrite Hr in Hr'. injection Hr' as <-. auto.
Qed.

(** The predicate has a veto: when [shouldRetry] answers [false] for
    the delay of the per-call options, the attempt count, the request,
    its options and the response, the call ends in the state the
    delegate left. *)
Theorem no_retry_when_vetoed fuel this n o s c w cfg :
  nextMiddleware_execute (st_context s) (st_world s) = (None, c, w) ->
  st_heap s !! o = Some cfg ->
  RetryHandlerOptions.shouldRetry cfg (RetryHandlerOptions.delay cfg) n
    (Context.request c) (Context.options c) (Context.response c) = false ->
  snd (executeWithRetry (S fuel) this n o s)
  = mkState c (st_heap s) w (st_trace s ++ [Delegated None])%list.
Proof.
  intros E Ho Hveto. apply no_retry_state; [exact E |].
  intros El. apply eligible_fst_true, eligible_true_iff in El
    as (cfg' & r & Ho' & _ & Hr & _ & _ & Hyes).
  cbn in Ho', Hr, Hyes. rewrite Ho in Ho'. injection Ho' as <-.
  rewrite Hr in Hveto. congruence.
Qed.

End NoRetry.

(** ** The shape of a call *)

Section Shape.

Context `{Environment}.

Import RetryHandler.

(** What the [then] branch computes: with the condition of the [if]
    true and [this.options] in place, the delay is the minimum of
    [newDelay] and the cap, computed on the context that already
    carries the new attempt count. *)
Lemma prepare_returns this n o s cfg :
  fst (eligible n o s) = Return true ->
  st_heap s !! options this = Some cfg ->
  exists eff r nd w,
    st_heap s !! o = Some eff
    /\ Context.response (st_context s) = Some r
    /\ prepare this (S n) o s =
       (Return (JS.Math_min nd (RetryHandlerOptions.maxDelay cfg)),
        mkState (announced (S n) (st_context s)) (st_heap s) w (st_trace s))
    /\ getDelay this (Some r) (S n) (RetryHandlerOptions.delay eff)
         (mkState (announced (S n) (st_context s)) (st_heap s) (st_world s) (st_trace s))
       = (Return (JS.Math_min nd (RetryHandlerOptions.maxDelay cfg)),
          mkState (announced (S n) (st_context s)) (st_heap s) w (st_trace s)).
Proof.
  intros El Hthis. apply eligible_fst_true, eligible_true_iff in El
    as (eff & r & Ho & _ & Hr & _).
  rewrite (prepare_run this (S n) o s eff Ho), Hr.
  set (s' := mkState _ _ _ _).
  destruct (getDelay_run this r (S n) (RetryHandlerOptions.delay eff) s' cfg Hthis)
    as (nd & w & _ & E).
  exists eff, r, nd, w. rewrite E. auto.
Qed.

(** A call that has settled went through turns: a delegate invocation
    first, and between any two invocations exactly one suspension; only
    the last invocation can be one that threw.  So the delegate is
    always invoked at least once, and once more than the call
    suspended itself. *)
Theorem settled_call_goes_in_turns fuel : forall this n o s,
  fst (executeWithRetry fuel this n o s) <> Pending ->
  exists new,
    added s (snd (executeWithRetry fuel this n o s)) new
    /\ turns new
    /\ delegations new = S (suspensions new).
Proof.
  unfold added.
  induction fuel as [| fuel IH]; intros this n o s; [intros Hp; destruct Hp; reflexivity |].
  rewrite executeWithRetry_step.
  destruct (nextMiddleware_execute _ _) as [[[e |] c] w]; cbv zeta.
  - intros _. exists [Delegated (Some e)]. cbn. auto.
  - set (s1 := mkState _ _ _ _).
    destruct (fst (eligible n o s1)) as [[|] | t |];
      try solve [intros _; exists [Delegated None]; cbn; auto].
    pose proof (internal_prepare this (S n) o s1) as (_ & Ht & _).
    destruct (prepare this (S n) o s1) as [[d | t |] s2]; cbn in Ht;
      try solve [intros _; exists [Delegated None]; cbn; rewrite Ht; auto].
    intros Hp. destruct (IH this (S n) o (after_sleep d s2) Hp) as (new & Ea & Hturns & Hcount).
    exists (Delegated None :: Slept (JS.mul d (Num 1000)) :: new).
    split; [| split].
    + rewrite Ea. cbn [after_sleep st_trace]. rewrite Ht. subst s1; cbn.
      rewrite <- !app_assoc. reflexivity.
    + cbn. auto.
    + unfold delegations, suspensions in *. cbn. rewrite Hcount. reflexivity.
Qed.

Lemma timer_within_min nd m :
  timer_within m (JS.mul (JS.Math_min nd (Num m)) (Num 1000)).
Proof.
  destruct nd as [| x]; [exact I |].
  destruct (Math_min_numbers x m) as (v & -> & Hv & _). cbn. lra.
Qed.

(** No suspension outlasts the cap: in a handler whose [this.options]
    has the number [m] as [maxDelay], every timer a call awaits is set
    to at most [m * 1000] milliseconds, or to [NaN] (which fires at
    once), however long the Retry-After of the server or the backoff
    would have it wait. *)
Theorem suspensions_within_maxDelay fuel : forall this n o s cfg m,
  st_heap s !! options this = Some cfg ->
  RetryHandlerOptions.maxDelay cfg = Num m ->
  exists new,
    added s (snd (executeWithRetry fuel this n o s)) new
    /\ Forall (suspension_within m) new.
Proof.
  unfold added.
  induction fuel as [| fuel IH]; intros this n o s cfg m Hthis Hm.
  - exists []. cbn. rewrite app_nil_r. auto.
  - rewrite executeWithRetry_step.
    destruct (nextMiddleware_execute _ _) as [[[e |] c] w]; cbv zeta.
    + exists [Delegated (Some e)]. split; [reflexivity |]. repeat constructor.
    + set (s1 := mkState _ _ _ _).
      destruct (fst (eligible n o s1)) as [[|] | t |] eqn:El;
        try solve [exists [Delegated None]; split; [reflexivity | repeat constructor]].
      destruct (prepare_returns this n o s1 cfg El Hthis)
        as (eff & r & nd & w' & _ & _ & Ep & _).
      rewrite Ep, Hm.
      set (d := JS.Math_min nd (Num m)). set (s2 := mkState _ _ _ _).
      destruct (IH this (S n) o (after_sleep d s2) cfg m Hthis Hm) as (new & Ea & Hall).
      exists (Delegated None :: Slept (JS.mul d (Num 1000)) :: new).
      split.
      * rewrite Ea. subst s2 s1; cbn. rewrite <- !app_assoc. reflexivity.
      * constructor; [exact I |]. constructor; [| exact Hall].
        apply timer_within_min.
Qed.

(** One retry, step by step: when the condition of the [if] holds
    after the delegate has returned, the attempt count goes up by one,
    the new count is written to the request before the delay is
    computed, the call sleeps for what [getDelay] answers for the new
    count and the [delay] of the per-call options, and the loop goes
    on with the new count, from the context with the header and the
    world as the timer left it. *)
Theorem retry_turn fuel this n o s c w cfg :
  nextMiddleware_execute (st_context s) (st_world s) = (None, c, w) ->
  fst (eligible n o (mkState c (st_heap s) w (st_trace s ++ [Delegated None])%list))
  = Return true ->
  st_heap s !! options this = Some cfg ->
  exists eff r d w',
    st_heap s !! o = Some eff
    /\ Context.response c = Some r
    /\ getDelay this (Some r) (S n) (RetryHandlerOptions.delay eff)
         (mkState (announced (S n) c) (st_heap s) w (st_trace s ++ [Delegated None])%list)
       = (Return d,
          mkState (announced (S n) c) (st_heap s) w' (st_trace s ++ [Delegated None])%list)
    /\ executeWithRetry (S fuel) this n o s
       = executeWithRetry fuel this (S n) o
           (mkState (announced (S n) c) (st_heap s)
                    (setTimeout (JS.mul d (Num 1000)) w')
                    (st_trace s ++ [Delegated None; Slept (JS.mul d (Num 1000))])%list).
Proof.
  intros E El Hthis.
  destruct (prepare_returns this n o _ cfg El Hthis)
    as (eff & r & nd & w' & Ho & Hr & Ep & Eg).
  exists eff, r, (JS.Math_min nd (RetryHandlerOptions.maxDelay cfg)), w'.
  split; [exact Ho |]. split; [exact Hr |]. split; [exact Eg |].
  rewrite executeWithRetry_step, E. cbv zeta. rewrite El, Ep.
  unfold after_sleep. cbn [st_context st_heap st_world st_trace].
  rewrite <- app_assoc. reflexivity.
Qed.

End Shape.

(** ** The hint of the server *)

Section ServerHint.

Context `{Environment}.

Import RetryHandler.

(** A Retry-After header takes the place of the backoff altogether:
    the delay is the same for every attempt count and every base
    delay, [Math.random()] is not consulted, and for a numeric value
    nothing outside the handler is, the clock included. *)
Theorem retry_after_overrides_backoff this response ra n d n' d' s :
  response_header response RETRY_AFTER_HEADER = Some ra ->
  getDelay this (Some response) n d s = getDelay this (Some response) n' d' s
  /\ (JS.isNaN (Number ra) = false ->
      getDelay_newDelay (Some response) n d s = (Return (Number ra), s))
  /\ (JS.isNaN (Number ra) = true ->
      st_world (snd (getDelay_newDelay (Some response) n d s))
      = snd (Date_now (st_world s))).
Proof.
  intros E. split; [| split].
  - unfold getDelay, bind. rewrite !(newDelay_retry_after _ _ _ _ _ E). reflexivity.
  - intros Hn. rewrite (newDelay_retry_after _ _ _ _ _ E), Hn. reflexivity.
  - intros Hn. rewrite (newDelay_retry_after _ _ _ _ _ E), Hn.
    destruct (Date_now (st_world s)); reflexivity.
Qed.

End ServerHint.

(** ** Failures of the handler's own *)

Section OwnFailures.

Context `{Environment}.

Import RetryHandler.

Lemma isBuffered_addressable request options r s :
  addressable request options ->
  exists b, isBuffered request options (Some r) s = (Return b, s).
Proof.
  intros Ha. unfold isBuffered, member, bind, ret.
  destruct request as [u | rq]; [destruct options as [fo |]; [| destruct Ha; reflexivity] |];
    cbn; repeat (case_match; cbn); eauto.
Qed.

(** With a [Request] object, or with request options at hand,
    [isBuffered] answers [true] or [false] for every response and
    leaves the state alone: it does not throw. *)
Theorem isBuffered_answers request options r s :
  addressable request options ->
  exists b, isBuffered request options (Some r) s = (Return b, s).
Proof. apply isBuffered_addressable. Qed.

Lemma eligible_answers n o s eff r :
  st_heap s !! o = Some eff ->
  Context.response (st_context s) = Some r ->
  addressable (Context.request (st_context s)) (Context.options (st_context s)) ->
  exists b, eligible n o s = (Return b, s).
Proof.
  intros Ho Hr Ha. unfold eligible, and_then, bind, deref, get_context, ret.
  rewrite Ho. cbv beta iota. destruct (JS.strict_eq _ _); [| eauto].
  rewrite Hr, isRetry_Some. destruct (negb _); [| eauto].
  destruct (isBuffered_addressable _ _ r s Ha) as [b Eb].
  cbv beta iota. rewrite Hr, Eb.
  destruct b; [| eauto]. rewrite Ho. eauto.
Qed.

Section Pipeline.

(** A delegate that, when it returns, leaves a response in the context
    and keeps the request readable; a header accessor that keeps the
    request readable. *)
Hypothesis next_answers : forall c w c' w',
  addressable (Context.request c) (Context.options c) ->
  nextMiddleware_execute c w = (None, c', w') ->
  addressable (Context.request c') (Context.options c')
  /\ Context.response c' <> None.

Hypothesis header_kept : forall request options key value,
  addressable request options ->
  addressable (fst (setRequestHeader request options key value))
              (snd (setRequestHeader request options key value)).

Lemma announced_addressable k c :
  addressable (Context.request c) (Context.options c) ->
  addressable (Context.request (announced k c)) (Context.options (announced k c)).
Proof.
  intros Ha. unfold announced.
  pose proof (header_kept _ _ RETRY_ATTEMPT_HEADER (JS.toString k) Ha) as Hk.
  destruct (setRequestHeader _ _ _ _) as [rq fo]. exact Hk.
Qed.

Lemma executeWithRetry_no_TypeError fuel : forall this n o s eff cfg msg,
  addressable (Context.request (st_context s)) (Context.options (st_context s)) ->
  st_heap s !! o = Some eff ->
  st_heap s !! options this = Some cfg ->
  fst (executeWithRetry fuel this n o s) <> Throw (TypeError msg).
Proof.
  induction fuel as [| fuel IH]; intros this n o s eff cfg msg Ha Ho Hthis;
    [discriminate |].
  rewrite executeWithRetry_step.
  destruct (nextMiddleware_execute _ _) as [[[e |] c] w] eqn:E; cbv zeta; [discriminate |].
  destruct (next_answers _ _ _ _ Ha E) as [Ha' Hr].
  destruct (Context.response c) as [r |] eqn:Hr'; [clear Hr | destruct Hr; reflexivity].
  set (s1 := mkState _ _ _ _).
  destruct (eligible_answers n o s1 eff r Ho Hr' Ha') as [b Eb].
  destruct b; rewrite Eb; cbn [fst]; [| discriminate].
  assert (fst (eligible n o s1) = Return true) as El by (rewrite Eb; reflexivity).
  destruct (prepare_returns this n o s1 cfg El Hthis)
    as (_ & _ & nd & w' & _ & _ & Ep & _).
  rewrite Ep. apply (IH this (S n) o _ eff cfg); cbn.
  - apply announced_addressable, Ha'.
  - exact Ho.
  - exact Hthis.
Qed.

End Pipeline.

(** With a request that is a [Request] object or comes with request
    options, a delegate that leaves a response whenever it returns, and
    header accessors that keep the request in that form, [execute]
    throws no [TypeError]: whatever it throws, the delegate threw. *)
Theorem execute_throws_nothing_of_its_own fuel this s cfg :
  (forall c w c' w',
      addressable (Context.request c) (Context.options c) ->
      nextMiddleware_execute c w = (None, c', w') ->
      addressable (Context.request c') (Context.options c')
      /\ Context.response c' <> None) ->
  (forall request options key value,
      addressable request options ->
      addressable (fst (setRequestHeader request options key value))
                  (snd (setRequestHeader request options key value))) ->
  addressable (Context.request (st_context s)) (Context.options (st_context s)) ->
  st_heap s !! options this = Some cfg ->
  forall t, fst (execute fuel this s) = Throw t -> exists e, t = FromNext e.
Proof.
  intros Hnext Hset Ha Hthis t Et.
  destruct t as [e | msg]; [eauto |]. exfalso.
  destruct (effective_options_run this s cfg Hthis) as (E & _ & Hne).
  rewrite execute_unfold in Et. unfold bind in Et. rewrite E in Et.
  revert Et.
  apply (executeWithRetry_no_TypeError Hnext Hset fuel this 0 _ _
           (effective cfg (override_of (st_context s))) cfg msg).
  - exact Ha.
  - cbn. apply lookup_insert_eq.
  - cbn. rewrite lookup_insert_ne by exact Hne. exact Hthis.
Qed.

End OwnFailures.

(** ** Failures of the delegate, seen from [execute] *)

Section ExecutePropagation.

Context `{Environment}.

Import RetryHandler.

(** [execute] passes a failure of the delegate on as it is: if the
    first invocation throws, [execute] throws that error; and in any
    run of [execute] either no invocation threw and the result is not
    a failure of the pipeline, or exactly one did, it is the last
    event of the run, and [execute] ends in that failure. *)
Theorem execute_propagates_failure fuel this s cfg :
  st_heap s !! options this = Some cfg ->
  (forall e c w,
      nextMiddleware_execute (st_context s) (st_world s) = (Some e, c, w) ->
      fst (execute (S fuel) this s) = Throw (FromNext e)
      /\ st_context (snd (execute (S fuel) this s)) = c
      /\ st_world (snd (execute (S fuel) this s)) = w
      /\ added s (snd (execute (S fuel) this s)) [Delegated (Some e)])
  /\ exists new,
       added s (snd (execute fuel this s)) new
       /\ ((failures new = []
            /\ forall e, fst (execute fuel this s) <> Throw (FromNext e))
           \/ (exists e pre,
                 new = (pre ++ [Delegated (Some e)])%list
                 /\ failures pre = []
                 /\ fst (execute fuel this s) = Throw (FromNext e))).
Proof.
  intros Hthis. destruct (effective_options_run this s cfg Hthis) as (E & _ & _).
  split.
  - intros e c w En. rewrite execute_unfold. unfold bind. rewrite E.
    rewrite executeWithRetry_step. cbn [set_heap st_context st_world]. rewrite En.
    unfold added. cbn. auto.
  - rewrite execute_unfold. unfold bind. rewrite E.
    destruct (executeWithRetry_failure_last fuel this 0 (fresh (dom (st_heap s)))
                (set_heap (<[fresh (dom (st_heap s)) :=
                               effective cfg (override_of (st_context s))]> (st_heap s)) s))
      as (new & Ea & Hn).
    exists new. split; [exact Ea | exact Hn].
Qed.

End ExecutePropagation.

(** ** A Retry-After date in the past *)

Section PastDate.

Context `{Environment}.

Import RetryHandler.

(** The cap cuts the delay from above only.  A Retry-After timestamp
    that is not after the reading of the clock gives the whole number
    of seconds nearest to the (negative) difference, and with a
    [maxDelay] that is not negative [getDelay] hands that number out
    as it is: zero or negative, and negative for a timestamp more than
    half a second in the past. *)
Theorem past_date_is_not_clamped this response ra n d s cfg m t t0 w :
  st_heap s !! options this = Some cfg ->
  RetryHandlerOptions.maxDelay cfg = Num m ->
  (0 <= m)%Q ->
  response_header response RETRY_AFTER_HEADER = Some ra ->
  Number ra = NaN ->
  Date_getTime ra = Num t ->
  Date_now (st_world s) = (Num t0, w) ->
  (t <= t0)%Q ->
  exists k : Z,
    getDelay this (Some response) n d s = (Return (Num (inject_Z k)), set_world w s)
    /\ ((t - t0) / 1000 - (1 # 2) < inject_Z k <= (t - t0) / 1000 + (1 # 2))%Q
    /\ (k <= 0)%Z
    /\ ((t - t0 < -500)%Q -> (k < 0)%Z).
Proof.
  intros Hthis Hm Hm0 E Hnan Ht Hnow Hpast.
  destruct (round_whole_seconds ((t - t0) / 1000)) as (k & Hk & Hb & Hneg).
  assert ((t - t0) / 1000 <= 0)%Q as Hy
    by (unfold Qdiv; change (/ 1000)%Q with (1 # 1000)%Q; lra).
  specialize (Hneg Hy).
  exists k. split; [| split; [exact Hb | split; [exact Hneg |]]].
  - unfold getDelay, bind, deref, ret.
    rewrite (newDelay_retry_after _ _ _ _ _ E), Hnan, Ht, Hnow.
    cbn [JS.isNaN set_world st_heap]. rewrite Hthis.
    unfold RetryHandlerOptions.getMaxDelay. rewrite Hm.
    change (JS.div (JS.sub (Num t) (Num t0)) (Num 1000)) with (Num ((t - t0) / 1000)).
    rewrite Hk. unfold JS.Math_min.
    assert (Qle_bool (inject_Z k) m = true) as ->; [| reflexivity].
    apply Qle_bool_iff. apply Qle_trans with 0%Q; [| exact Hm0].
    change 0%Q with (inject_Z 0). rewrite <- Zle_Qle. exact Hneg.
  - intros Hfar. rewrite Zlt_Qlt. change (inject_Z 0) with 0%Q.
    assert ((t - t0) / 1000 + (1 # 2) < 0)%Q
      by (unfold Qdiv; change (/ 1000)%Q with (1 # 1000)%Q; lra).
    lra.
Qed.

End PastDate.

(** ** Further instances in the scripted environment *)

Section FurtherInstances.

Import RetryHandler Scripted.

Lemma no_retry_on_other_status_witness :
  executeWithRetry 3 handler 0 0 (start post (with_maxRetries 0) healthy)
  = (Return tt,
     mkState (Context.make (Context.request post) (Context.options post)
                           (Some (chunked 200)) None)
             {[ 0%nat := with_maxRetries 0 ]} (mkWorld [] 0 []) [Delegated None]).
Proof.
  apply (no_retry_on_other_status 2 handler 0 0 (start post (with_maxRetries 0) healthy)
           _ _ (chunked 200) (with_maxRetries 0));
    [reflexivity | reflexivity | | reflexivity].
  unfold retryable. cbn. lia.
Defined.

Lemma no_retry_of_unsafe_payload_witness :
  ~ resend_safe (Context.request upload) (Context.options upload) (chunked 503)
  /\ st_trace (snd (executeWithRetry 3 handler 0 0 (start upload (with_maxRetries 0) flaky)))
     = [Delegated None].
Proof.
  assert (~ resend_safe (Context.request upload) (Context.options upload) (chunked 503))
    as Hunsafe by (intros (_ & Hct & _); apply Hct; reflexivity).
  split; [exact Hunsafe |].
  rewrite (no_retry_of_unsafe_payload 2 handler 0 0 (start upload (with_maxRetries 0) flaky)
             (Context.make (Context.request upload) (Context.options upload)
                           (Some (chunked 503)) None)
             (mkWorld [inr (chunked 503); inr (chunked 200)] 0 [])
             (chunked 503) eq_refl eq_refl Hunsafe).
  reflexivity.
Defined.

Lemma no_retry_when_vetoed_witness :
  st_trace (snd (executeWithRetry 3 handler 0 0 (start post vetoing flaky)))
  = [Delegated None].
Proof.
  rewrite (no_retry_when_vetoed 2 handler 0 0 (start post vetoing flaky)
             (Context.make (Context.request post) (Context.options post)
                           (Some (chunked 503)) None)
             (mkWorld [inr (chunked 503); inr (chunked 200)] 0 [])
             vetoing eq_refl eq_refl eq_refl).
  reflexivity.
Defined.

Lemma settled_call_goes_in_turns_witness :
  fst (executeWithRetry 3 handler 0 0 (start post (with_maxRetries 0) flaky)) <> Pending
  /\ exists new,
       added (start post (with_maxRetries 0) flaky)
             (snd (executeWithRetry 3 handler 0 0 (start post (with_maxRetries 0) flaky)))
             new
       /\ turns new
       /\ delegations new = S (suspensions new).
Proof.
  assert (fst (executeWithRetry 3 handler 0 0 (start post (with_maxRetries 0) flaky))
          <> Pending) as Hs by (vm_compute; discriminate).
  split; [exact Hs |].
  exact (settled_call_goes_in_turns 3 handler 0 0
           (start post (with_maxRetries 0) flaky) Hs).
Defined.

(** A Retry-After of ten minutes against a cap of 180 seconds. *)
Lemma suspensions_within_maxDelay_witness :
  let s := start post (with_maxRetries 0)
                 (mkWorld [inr (mkResponse 429 (Some {[ "transfer-encoding" := "chunked";
                                                        "retry-after" := "600" ]}));
                           inr (chunked 200)] 0 []) in
  st_trace (snd (executeWithRetry 3 handler 0 0 s))
  = [Delegated None; Slept (Num 180000); Delegated None]
  /\ exists new,
       added s (snd (executeWithRetry 3 handler 0 0 s)) new
       /\ Forall (suspension_within 180) new.
Proof.
  cbv zeta. split; [vm_compute; reflexivity |].
  exact (suspensions_within_maxDelay 3 handler 0 0
           (start post (with_maxRetries 0)
              (mkWorld [inr (mkResponse 429 (Some {[ "transfer-encoding" := "chunked";
                                                     "retry-after" := "600" ]}));
                        inr (chunked 200)] 0 []))
           (with_maxRetries 0) 180 eq_refl eq_refl).
Defined.

Lemma retry_turn_witness :
  exists eff r d w',
    st_heap (start post (with_maxRetries 0) flaky) !! 0%nat = Some eff
    /\ Some (chunked 503) = Some r
    /\ getDelay handler (Some r) 1 (RetryHandlerOptions.delay eff)
         (mkState (announced 1 (Context.make (Context.request post) (Context.options post)
                                             (Some (chunked 503)) None))
                  {[ 0%nat := with_maxRetries 0 ]}
                  (mkWorld [inr (chunked 503); inr (chunked 200)] 0 [])
                  [Delegated None])
       = (Return d,
          mkState (announced 1 (Context.make (Context.request post) (Context.options post)
                                              (Some (chunked 503)) None))
                  {[ 0%nat := with_maxRetries 0 ]} w' [Delegated None])
    /\ executeWithRetry 3 handler 0 0 (start post (with_maxRetries 0) flaky)
       = executeWithRetry 2 handler 1 0
           (mkState (announced 1 (Context.make (Context.request post) (Context.options post)
                                               (Some (chunked 503)) None))
                    {[ 0%nat := with_maxRetries 0 ]}
                    (setTimeout (JS.mul d (Num 1000)) w')
                    [Delegated None; Slept (JS.mul d (Num 1000))]).
Proof.
  exact (retry_turn 2 handler 0 0 (start post (with_maxRetries 0) flaky)
           (Context.make (Context.request post) (Context.options post)
                         (Some (chunked 503)) None)
           (mkWorld [inr (chunked 503); inr (chunked 200)] 0 [])
           (with_maxRetries 0) eq_refl eq_refl eq_refl).
Defined.

Lemma retry_after_overrides_backoff_witness :
  let s := start post (with_maxRetries 3) flaky in
  getDelay handler (Some (retry_after "7")) 1 (Num 3) s
  = getDelay handler (Some (retry_after "7")) 9 (Num 50) s
  /\ getDelay_newDelay (Some (retry_after "7")) 1 (Num 3) s = (Return (Num 7), s).
Proof.
  cbv zeta.
  destruct (retry_after_overrides_backoff handler (retry_after "7") "7" 1 (Num 3) 9 (Num 50)
              (start post (with_maxRetries 3) flaky) eq_refl) as (E1 & E2 & _).
  split; [exact E1 | apply E2; reflexivity].
Defined.

Lemma isBuffered_answers_witness :
  addressable (Context.request post) (Context.options post)
  /\ exists b,
       isBuffered (Context.request post) (Context.options post) (Some (chunked 503))
                  (start post (with_maxRetries 3) flaky)
       = (Return b, start post (with_maxRetries 3) flaky).
Proof.
  assert (addressable (Context.request post) (Context.options post)) as Ha
    by (cbn; discriminate).
  split; [exact Ha |].
  exact (isBuffered_answers _ _ (chunked 503) (start post (with_maxRetries 3) flaky) Ha).
Defined.

(** The scripted transport and header accessors are of the kind
    [execute_throws_nothing_of_its_own] asks for. *)
Lemma scripted_next_answers c w c' w' :
  addressable (Context.request c) (Context.options c) ->
  next c w = (None, c', w') ->
  addressable (Context.request c') (Context.options c')
  /\ Context.response c' <> None.
Proof.
  unfold next. intros Ha E.
  destruct (replies w) as [| [e | r] rest]; try discriminate.
  injection E as <- <-. cbn. split; [exact Ha | discriminate].
Qed.

Lemma scripted_header_kept request options key value :
  addressable request options ->
  addressable (fst (setHeader request options key value))
              (snd (setHeader request options key value)).
Proof.
  unfold setHeader. destruct request as [u | r]; [| intros _; exact I].
  destruct options as [o |]; cbn; [discriminate | auto].
Qed.

Lemma execute_throws_nothing_of_its_own_witness :
  addressable (Context.request post) (Context.options post)
  /\ forall t,
       fst (execute 5 handler (start post (with_maxRetries 0) flaky)) = Throw t ->
       exists e, t = FromNext e.
Proof.
  assert (addressable (Context.request post) (Context.options post)) as Ha
    by (cbn; discriminate).
  split; [exact Ha |].
  exact (execute_throws_nothing_of_its_own 5 handler
           (start post (with_maxRetries 0) flaky) (with_maxRetries 0)
           scripted_next_answers scripted_header_kept Ha eq_refl).
Defined.

Lemma execute_propagates_failure_witness :
  fst (execute 3 handler (start post (with_maxRetries 3) broken))
  = Throw (FromNext "connection reset")
  /\ st_trace (snd (execute 3 handler (start post (with_maxRetries 3) broken)))
     = [Delegated (Some "connection reset")].
Proof.
  destruct (proj1 (execute_propagates_failure 2 handler
                     (start post (with_maxRetries 3) broken) (with_maxRetries 3) eq_refl)
              "connection reset" post (mkWorld [] 0 []) eq_refl) as (E1 & _ & _ & E4).
  split; [exact E1 | exact E4].
Defined.

Lemma past_date_is_not_clamped_witness :
  exists k : Z,
    getDelay handler (Some (retry_after "Thu, 01 Jan 1970 00:01:00 GMT")) 1 (Num 3)
             (start post (with_maxRetries 3) (mkWorld [] 90000 []))
    = (Return (Num (inject_Z k)),
       set_world (mkWorld [] 90000 []) (start post (with_maxRetries 3) (mkWorld [] 90000 [])))
    /\ ((60000 - 90000) / 1000 - (1 # 2) < inject_Z k
        <= (60000 - 90000) / 1000 + (1 # 2))%Q
    /\ (k <= 0)%Z
    /\ ((60000 - 90000 < -500)%Q -> (k < 0)%Z).
Proof.
  apply (past_date_is_not_clamped handler
           (retry_after "Thu, 01 Jan 1970 00:01:00 GMT")
           "Thu, 01 Jan 1970 00:01:00 GMT" 1 (Num 3)
           (start post (with_maxRetries 3) (mkWorld [] 90000 []))
           (with_maxRetries 3) 180 60000 90000 (mkWorld [] 90000 []));
    try reflexivity; vm_compute; discriminate.
Defined.

End FurtherInstances.
